(** * web-model-viewer: the scene-composition helpers of [src/lib/threejs.ts]

    A shallow embedding of the functions of [threejs.ts] and of the part of
    three.js and of the browser they call.

    - JavaScript numbers are IEEE 754 binary64 values: Rocq's primitive
      [float], whose operations are the ones the JavaScript engine runs.
    - Objects that the code mutates in place are passed and returned.
    - The two [async] loaders are split at their single [await]. *)

From Stdlib Require Import Floats.
From stdpp Require Import base option list gmap strings pretty.

(** ** JavaScript numbers *)

Module JS.

Definition number := float.

Definition is_neg_zero (v : number) : bool :=
  match classify v with NZero => true | _ => false end.

Definition is_pos_zero (v : number) : bool :=
  match classify v with PZero => true | _ => false end.

(** [Math.max(...args)] (ECMA-262, 21.3.2.24): NaN when an argument is
    NaN; otherwise the scan from -Infinity, where +0 beats -0. *)
Definition Math_max (args : list number) : number :=
  if existsb is_nan args then nan
  else fold_left
         (fun highest v =>
            if (is_pos_zero v && is_neg_zero highest) || (highest <? v)%float
            then v else highest)
         args neg_infinity.

(** [Math.min(...args)] (ECMA-262, 21.3.2.25). *)
Definition Math_min (args : list number) : number :=
  if existsb is_nan args then nan
  else fold_left
         (fun lowest v =>
            if (is_neg_zero v && is_pos_zero lowest) || (v <? lowest)%float
            then v else lowest)
         args infinity.

(** A number that is neither NaN nor an infinity ([Number.isFinite]). *)
Definition finite (v : number) : Prop := is_finite v = true.

End JS.

(** ** three.js: [Vector3] *)

Module Vector3.

Record t := mk { x : JS.number; y : JS.number; z : JS.number }.

Arguments mk (x y z)%_float.

Definition setScalar (s : JS.number) : t := mk s s s.

Definition addVectors (a b : t) : t :=
  mk (x a + x b)%float (y a + y b)%float (z a + z b)%float.

Definition subVectors (a b : t) : t :=
  mk (x a - x b)%float (y a - y b)%float (z a - z b)%float.

Definition multiplyScalar (v : t) (s : JS.number) : t :=
  mk (x v * s) (y v * s) (z v * s).

Definition min (v w : t) : t :=
  mk (JS.Math_min [x v; x w]) (JS.Math_min [y v; y w]) (JS.Math_min [z v; z w]).

Definition max (v w : t) : t :=
  mk (JS.Math_max [x v; x w]) (JS.Math_max [y v; y w]) (JS.Math_max [z v; z w]).

Definition all_finite (v : t) : Prop :=
  JS.finite (x v) /\ JS.finite (y v) /\ JS.finite (z v).

End Vector3.

(** ** three.js: the world matrix of an object

    Orientation is not modelled: every object keeps the identity quaternion,
    so a local matrix is [compose(position, identity, scale)] and every
    product of such matrices is again a scale followed by a translation.
    [Matrix4.t] keeps the diagonal and the last column of the 4x4 matrix;
    its other entries are zero as long as positions and scales are
    finite. *)

Module Matrix4.

Record t := mk { diagonal : Vector3.t; translation : Vector3.t }.

Definition compose (position scale : Vector3.t) : t := mk scale position.

(** [multiplyMatrices(a, b)]: the non-zero entries of the product. *)
Definition multiplyMatrices (a b : t) : t :=
  let sa := diagonal a in
  let sb := diagonal b in
  let ta := translation a in
  let tb := translation b in
  mk (Vector3.mk (Vector3.x sa * Vector3.x sb)%float
                 (Vector3.y sa * Vector3.y sb)%float
                 (Vector3.z sa * Vector3.z sb)%float)
     (Vector3.mk (Vector3.x sa * Vector3.x tb + Vector3.x ta)%float
                 (Vector3.y sa * Vector3.y tb + Vector3.y ta)%float
                 (Vector3.z sa * Vector3.z tb + Vector3.z ta)%float).

(** [Vector3.applyMatrix4]. *)
Definition apply (m : t) (v : Vector3.t) : Vector3.t :=
  Vector3.mk
    (Vector3.x (diagonal m) * Vector3.x v + Vector3.x (translation m))%float
    (Vector3.y (diagonal m) * Vector3.y v + Vector3.y (translation m))%float
    (Vector3.z (diagonal m) * Vector3.z v + Vector3.z (translation m))%float.

End Matrix4.

(** ** three.js: [Box3] *)

Module Box3.

Record t := mk { min : Vector3.t; max : Vector3.t }.

Definition makeEmpty : t :=
  mk (Vector3.setScalar infinity) (Vector3.setScalar neg_infinity).

Definition isEmpty (b : t) : bool :=
  (Vector3.x (max b) <? Vector3.x (min b))%float
  || (Vector3.y (max b) <? Vector3.y (min b))%float
  || (Vector3.z (max b) <? Vector3.z (min b))%float.

Definition expandByPoint (b : t) (p : Vector3.t) : t :=
  mk (Vector3.min (min b) p) (Vector3.max (max b) p).

Definition setFromPoints (ps : list Vector3.t) : t :=
  fold_left expandByPoint ps makeEmpty.

Definition union (b c : t) : t :=
  mk (Vector3.min (min b) (min c)) (Vector3.max (max b) (max c)).

(** The eight corners, in the order of three.js's bit pattern 000 .. 111. *)
Definition corners (b : t) : list Vector3.t :=
  let lo := min b in
  let hi := max b in
  [ Vector3.mk (Vector3.x lo) (Vector3.y lo) (Vector3.z lo);
    Vector3.mk (Vector3.x lo) (Vector3.y lo) (Vector3.z hi);
    Vector3.mk (Vector3.x lo) (Vector3.y hi) (Vector3.z lo);
    Vector3.mk (Vector3.x lo) (Vector3.y hi) (Vector3.z hi);
    Vector3.mk (Vector3.x hi) (Vector3.y lo) (Vector3.z lo);
    Vector3.mk (Vector3.x hi) (Vector3.y lo) (Vector3.z hi);
    Vector3.mk (Vector3.x hi) (Vector3.y hi) (Vector3.z lo);
    Vector3.mk (Vector3.x hi) (Vector3.y hi) (Vector3.z hi) ].

Definition applyMatrix4 (b : t) (m : Matrix4.t) : t :=
  if isEmpty b then b
  else setFromPoints (List.map (Matrix4.apply m) (corners b)).

Definition getCenter (b : t) : Vector3.t :=
  if isEmpty b then Vector3.mk 0 0 0
  else Vector3.multiplyScalar (Vector3.addVectors (min b) (max b)) 0.5%float.

Definition getSize (b : t) : Vector3.t :=
  if isEmpty b then Vector3.mk 0 0 0
  else Vector3.subVectors (max b) (min b).

End Box3.

(** ** three.js: the scene graph *)

(** A material is referred to by its identity (three.js gives every material
    instance its own [id]); two instances with equal parameters are two
    materials. *)
Inductive Material := MaterialRef (id : nat).

#[global] Instance Material_eq_dec : EqDecision Material.
Proof. solve_decision. Defined.

#[global] Instance Material_countable : Countable Material.
Proof.
  apply (inj_countable' (fun m => match m with MaterialRef i => i end) MaterialRef).
  intros []; reflexivity.
Defined.

(** The [material] property of a mesh as the code inspects it: falsy
    ([undefined], [null]), one material, or an array of materials. *)
Inductive MaterialSlot :=
| MatUndefined
| MatNull
| MatSingle (m : Material)
| MatArray (ms : list Material).

(** The [position] attribute of a [BufferGeometry]. *)
Definition BufferGeometry := list Vector3.t.

(** What [instanceof Mesh] and [object.geometry] tell apart: meshes, other
    objects that draw a geometry (lines, points), and the rest (groups,
    lights, cameras, bones). *)
Inductive ObjectClass :=
| IsMesh (geometry : BufferGeometry) (material : MaterialSlot)
| IsLine (geometry : BufferGeometry) (material : MaterialSlot)
| IsGroup.

(** The own properties of an [Object3D] that the code reads or writes. *)
Record Props := mkProps {
  class : ObjectClass;
  position : Vector3.t;
  scale : Vector3.t;
  castShadow : bool;
  receiveShadow : bool
}.

#[warnings="-register-all"]
Inductive Object3D := Obj (props : Props) (children : list Object3D).

Definition props_of (o : Object3D) : Props :=
  match o with Obj p _ => p end.

Definition children_of (o : Object3D) : list Object3D :=
  match o with Obj _ cs => cs end.

Definition isMesh (p : Props) : bool :=
  match class p with IsMesh _ _ => true | _ => false end.

Definition geometry_of (p : Props) : option BufferGeometry :=
  match class p with
  | IsMesh g _ | IsLine g _ => Some g
  | IsGroup => None
  end.

(** [object.traverse(callback)]: the callback on the object, then the
    traversal of each child in order.  The callback may update the visited
    object's own properties and a state [S] it closes over. *)
Fixpoint traverse {S : Type} (callback : Props -> S -> Props * S)
    (o : Object3D) (s : S) : Object3D * S :=
  match o with
  | Obj p cs =>
      let '(p', s1) := callback p s in
      let '(cs', s2) :=
        (fix each (l : list Object3D) (s : S) : list Object3D * S :=
           match l with
           | [] => ([], s)
           | c :: r =>
               let '(c', s') := traverse callback c s in
               let '(r', s'') := each r s' in
               (c' :: r', s'')
           end) cs s1 in
      (Obj p' cs', s2)
  end.

(** The loop of [traverse] over the children, on its own. *)
Definition traverseChildren {S : Type} (callback : Props -> S -> Props * S)
    : list Object3D -> S -> list Object3D * S :=
  fix each (l : list Object3D) (s : S) : list Object3D * S :=
    match l with
    | [] => ([], s)
    | c :: r =>
        let '(c', s') := traverse callback c s in
        let '(r', s'') := each r s' in
        (c' :: r', s'')
    end.

(** [BufferGeometry.computeBoundingBox]. *)
Definition computeBoundingBox (g : BufferGeometry) : Box3.t :=
  Box3.setFromPoints g.

(** [object.updateWorldMatrix(false, false)]: the local matrix, times the
    parent's world matrix when there is a parent. *)
Definition matrixWorld (parent : option Matrix4.t) (p : Props) : Matrix4.t :=
  let local := Matrix4.compose (position p) (scale p) in
  match parent with
  | None => local
  | Some pw => Matrix4.multiplyMatrices pw local
  end.

(** [Box3.expandByObject(object)] with [precise = false]. *)
Fixpoint expandByObject (parent : option Matrix4.t) (o : Object3D)
    (box : Box3.t) : Box3.t :=
  match o with
  | Obj p cs =>
      let world := matrixWorld parent p in
      let box1 :=
        match geometry_of p with
        | Some g =>
            Box3.union box (Box3.applyMatrix4 (computeBoundingBox g) world)
        | None => box
        end in
      (fix each (l : list Object3D) (b : Box3.t) : Box3.t :=
         match l with
         | [] => b
         | c :: r => each r (expandByObject (Some world) c b)
         end) cs box1
  end.

(** [new Box3().setFromObject(model)] for a model without a parent. *)
Definition setFromObject (model : Object3D) : Box3.t :=
  expandByObject None model Box3.makeEmpty.

(** ** [centerAndScaleModel] (threejs.ts, lines 172-187) *)

Definition centerAndScaleModel (model : Object3D) : Object3D :=
  let box := setFromObject model in
  let center := Box3.getCenter box in
  let size := Box3.getSize box in
  let maxDim :=
    JS.Math_max [Vector3.x size; Vector3.y size; Vector3.z size] in
  let scale' := (3 / maxDim)%float in
  match model with
  | Obj p cs =>
      Obj {| class := class p;
             position :=
               Vector3.mk (- Vector3.x center * scale')%float
                          (- Vector3.y (Box3.min box) * scale')%float
                          (- Vector3.z center * scale')%float;
             scale := Vector3.setScalar scale';
             castShadow := castShadow p;
             receiveShadow := receiveShadow p |} cs
  end.

(** ** [enableModelShadows] (threejs.ts, lines 193-200) *)

Definition enableShadows (child : Props) (_ : unit) : Props * unit :=
  if isMesh child
  then ({| class := class child;
           position := position child;
           scale := scale child;
           castShadow := true;
           receiveShadow := true |}, tt)
  else (child, tt).

Definition enableModelShadows (model : Object3D) : Object3D :=
  fst (traverse enableShadows model tt).

(** ** [getUniqueModelMaterials] (threejs.ts, lines 207-223) *)

(** A JavaScript [Set]: its elements in insertion order, each once. *)
Module JSSet.

Definition t (A : Type) := list A.

Definition empty {A : Type} : t A := [].

Definition add {A : Type} `{EqDecision A} (v : A) (s : t A) : t A :=
  if decide (v ∈ s) then s else s ++ [v].

(** [Array.from(set)]. *)
Definition toArray {A : Type} (s : t A) : list A := s.

End JSSet.

(** The callback of the traversal: a mesh whose [material] is truthy adds
    it, or each element of it when it is an array. *)
Definition collectMaterials (child : Props) (materials : JSSet.t Material)
    : Props * JSSet.t Material :=
  match class child with
  | IsMesh _ (MatArray ms) =>
      (child, fold_left (fun s mat => JSSet.add mat s) ms materials)
  | IsMesh _ (MatSingle m) => (child, JSSet.add m materials)
  | IsMesh _ MatUndefined | IsMesh _ MatNull => (child, materials)
  | IsLine _ _ | IsGroup => (child, materials)
  end.

(** The model after the call, and the array returned. *)
Definition getUniqueModelMaterials_run (model : Object3D)
    : Object3D * list Material :=
  let '(model', materials) := traverse collectMaterials model JSSet.empty in
  (model', JSSet.toArray materials).

Definition getUniqueModelMaterials (model : Object3D) : list Material :=
  snd (getUniqueModelMaterials_run model).

(** ** [initCamera] (threejs.ts, lines 39-48) *)

Record HTMLDivElement := mkDiv {
  clientWidth : JS.number;
  clientHeight : JS.number
}.

Arguments mkDiv (clientWidth clientHeight)%_float.

Module PerspectiveCamera.

Record t := mk {
  fov : JS.number;
  aspect : JS.number;
  near : JS.number;
  far : JS.number;
  position : Vector3.t
}.

End PerspectiveCamera.

#[warnings="-inexact-float"]
Definition initCamera (mountNode : HTMLDivElement) : PerspectiveCamera.t :=
  {| PerspectiveCamera.fov := 75%float;
     PerspectiveCamera.aspect :=
       (clientWidth mountNode / clientHeight mountNode)%float;
     PerspectiveCamera.near := 0.1%float;
     PerspectiveCamera.far := 1000%float;
     PerspectiveCamera.position := Vector3.mk 5 3 5 |}.

(** ** The scene and the browser *)

Inductive JsError := Error (message : string).

Record File := mkFile { file_name : string }.

Inductive Mapping := UVMapping | EquirectangularReflectionMapping.

Record Texture := mkTexture { texture_id : nat; mapping : Mapping }.

Inductive Background :=
| NoBackground
| TextureBackground (texture : Texture)
| ColorBackground (hex : N).

Record Scene := mkScene {
  environment : option Texture;
  background : Background;
  backgroundBlurriness : JS.number
}.

(** What the loaders do to the browser, in the order they do it. *)
Inductive Event :=
| CreateObjectURL (url : string)
| RevokeObjectURL (url : string)
| ConsoleError (message : string) (error : JsError).

(** The state the loaders run in: the scene ([setupEnvironment]'s [scene]
    argument refers to it), the object URLs the browser holds, and the
    events so far. *)
Record World := mkWorld {
  scene : Scene;
  objectURLs : list string;
  nextObjectURL : nat;
  events : list Event
}.

(** A statement either completes normally or throws. *)
Inductive Completion (A : Type) :=
| Normal (value : A)
| Throw (error : JsError).

Arguments Normal {A} value.
Arguments Throw {A} error.

Definition Js (A : Type) : Type := World -> Completion A * World.

Definition ret {A : Type} (v : A) : Js A := fun w => (Normal v, w).

Definition throw {A : Type} (e : JsError) : Js A := fun w => (Throw e, w).

Definition bind {A B : Type} (m : Js A) (k : A -> Js B) : Js B :=
  fun w =>
    match m w with
    | (Normal v, w') => k v w'
    | (Throw e, w') => (Throw e, w')
    end.

Declare Scope js_scope.
Delimit Scope js_scope with js.
Notation "x <- m ;; k" := (bind m (fun x => k))
  (at level 100, m at next level, right associativity) : js_scope.
Notation "m ;;; k" := (bind m (fun _ => k))
  (at level 100, right associativity) : js_scope.

(** [try { body } catch (error) { handler error }]. *)
Definition try_catch {A : Type} (body : Js A) (handler : JsError -> Js A)
    : Js A :=
  fun w =>
    match body w with
    | (Normal v, w') => (Normal v, w')
    | (Throw e, w') => handler e w'
    end.

(** [try { body } finally { finalizer }]: the finalizer runs on both
    completions, and the body's completion stands unless the finalizer
    throws. *)
Definition try_finally {A : Type} (body : Js A) (finalizer : Js unit)
    : Js A :=
  fun w =>
    let '(c, w1) := body w in
    match finalizer w1 with
    | (Normal _, w2) => (c, w2)
    | (Throw e, w2) => (Throw e, w2)
    end.

(** The outcome of a promise, and [await] on it once it has settled. *)
Inductive Settled (A : Type) :=
| Fulfilled (value : A)
| Rejected (reason : JsError).

Arguments Fulfilled {A} value.
Arguments Rejected {A} reason.

Definition await {A : Type} (p : Settled A) : Js A :=
  match p with
  | Fulfilled v => ret v
  | Rejected e => throw e
  end.

Definition log (e : Event) : Js unit :=
  fun w =>
    (Normal tt,
     {| scene := scene w;
        objectURLs := objectURLs w;
        nextObjectURL := nextObjectURL w;
        events := events w ++ [e] |}).

(** [URL.createObjectURL(file)]: a URL the browser did not hand out before. *)
Definition URL_createObjectURL (file : File) : Js string :=
  fun w =>
    let url := "blob:" +:+ pretty (nextObjectURL w) in
    (Normal url,
     {| scene := scene w;
        objectURLs := url :: objectURLs w;
        nextObjectURL := S (nextObjectURL w);
        events := events w ++ [CreateObjectURL url] |}).

(** [URL.revokeObjectURL(url)]. *)
Definition URL_revokeObjectURL (url : string) : Js unit :=
  fun w =>
    (Normal tt,
     {| scene := scene w;
        objectURLs := filter (fun u => u <> url) (objectURLs w);
        nextObjectURL := nextObjectURL w;
        events := events w ++ [RevokeObjectURL url] |}).

Definition console_error (message : string) (error : JsError) : Js unit :=
  log (ConsoleError message error).

(** ** [setSceneEnvironment] (threejs.ts, lines 85-95)

    The texture and the scene are written in place: both are returned. *)
Definition setSceneEnvironment (s : Scene) (texture : Texture)
    (blurriness : JS.number) (useSkybox : bool) : Scene * Texture :=
  let texture' :=
    {| texture_id := texture_id texture;
       mapping := EquirectangularReflectionMapping |} in
  ({| environment := Some texture';
      background :=
        if useSkybox then TextureBackground texture'
        else ColorBackground 0xffffff%N;
      backgroundBlurriness := blurriness |},
   texture').

(** ** [setupEnvironment] (threejs.ts, lines 100-120) *)

(** [file: string | File]. *)
Inductive FileArg :=
| AsString (url : string)
| AsFile (file : File).

Definition is_string (file : FileArg) : bool :=
  match file with AsString _ => true | AsFile _ => false end.

(** A string is truthy when it is not empty. *)
Definition truthy (s : string) : bool :=
  match s with EmptyString => false | String _ _ => true end.

(** The template literal [`${file}`]. *)
Definition show_file (file : FileArg) : string :=
  match file with
  | AsString s => s
  | AsFile _ => "[object File]"
  end.

(** The variables of a call of [setupEnvironment] suspended at its
    [await]. *)
Record EnvironmentLoad := mkEnvironmentLoad {
  env_file : FileArg;
  env_url : string;
  env_blurriness : JS.number;
  env_useSkybox : bool
}.

(** Up to the [await]: the URL is chosen and the decode is started. *)
Definition setupEnvironment_begin (file : FileArg) (blurriness : JS.number)
    (useSkybox : bool) : Js EnvironmentLoad :=
  (url <- match file with
          | AsString s => ret s
          | AsFile f => URL_createObjectURL f
          end ;;
   ret (mkEnvironmentLoad file url blurriness useSkybox))%js.

(** The call [setSceneEnvironment(scene, texture, blurriness, useSkybox)]
    on the scene of the world; yields the texture as the call leaves it. *)
Definition installEnvironment (texture : Texture) (blurriness : JS.number)
    (useSkybox : bool) : Js Texture :=
  fun w =>
    let '(s', texture') :=
      setSceneEnvironment (scene w) texture blurriness useSkybox in
    (Normal texture',
     {| scene := s';
        objectURLs := objectURLs w;
        nextObjectURL := nextObjectURL w;
        events := events w |}).

(** From the [await] on, once [rgbeLoader.loadAsync(url)] has settled. *)
Definition setupEnvironment_resume (load : EnvironmentLoad)
    (decoded : Settled Texture) : Js Texture :=
  try_finally
    (try_catch
       (texture <- await decoded ;;
        installEnvironment texture (env_blurriness load) (env_useSkybox load))%js
       (fun error =>
          (console_error
             ("Error loading HDR environment: " +:+ show_file (env_file load))
             error ;;;
           throw error)%js))
    (if negb (is_string (env_file load)) && truthy (env_url load)
     then URL_revokeObjectURL (env_url load)
     else ret tt).

(** A call whose decode settles with [decoded], nothing else running in
    between. *)
Definition setupEnvironment (file : FileArg) (blurriness : JS.number)
    (useSkybox : bool) (decoded : Settled Texture) : Js Texture :=
  (load <- setupEnvironment_begin file blurriness useSkybox ;;
   setupEnvironment_resume load decoded)%js.

(** ** [loadGLTFModel] (threejs.ts, lines 152-165) *)

Record GLTF := mkGLTF { gltf_scene : Object3D }.

(** Up to the [await]: the URL of the suspended call. *)
Definition loadGLTFModel_begin (file : File) : Js string :=
  URL_createObjectURL file.

Definition loadGLTFModel_resume (url : string) (decoded : Settled GLTF)
    : Js GLTF :=
  try_finally
    (try_catch
       (gltf <- await decoded ;; ret gltf)%js
       (fun error =>
          (console_error "Error loading GLTF model:" error ;;;
           throw error)%js))
    (URL_revokeObjectURL url).

Definition loadGLTFModel (file : File) (decoded : Settled GLTF) : Js GLTF :=
  (url <- loadGLTFModel_begin file ;;
   loadGLTFModel_resume url decoded)%js.

(** ** Two environment loads in flight

    JavaScript runs one job at a time: between the start of a load and the
    job that resumes it after its [await], other jobs run to completion. *)

Record Request := mkRequest {
  req_file : FileArg;
  req_blurriness : JS.number;
  req_useSkybox : bool
}.

(** Which of the two decodes settles first. *)
Inductive Resolution := AFirst | BFirst.

(** A job run to completion: its completion settles the promise of its
    call and does not reach the other jobs. *)
Definition job {A : Type} (m : Js A) : Js (Completion A) :=
  fun w => let '(c, w') := m w in (Normal c, w').

(** Load [a] starts, load [b] starts before [a]'s decode has settled, and
    each is resumed when its decode settles, in the given order.  Returns
    the two suspended calls and the two completions. *)
Definition overlappingLoads (a b : Request) (da db : Settled Texture)
    (order : Resolution)
    : Js (EnvironmentLoad * EnvironmentLoad
          * Completion Texture * Completion Texture) :=
  (la <- setupEnvironment_begin (req_file a) (req_blurriness a)
           (req_useSkybox a) ;;
   lb <- setupEnvironment_begin (req_file b) (req_blurriness b)
           (req_useSkybox b) ;;
   match order with
   | AFirst =>
       ca <- job (setupEnvironment_resume la da) ;;
       cb <- job (setupEnvironment_resume lb db) ;;
       ret (la, lb, ca, cb)
   | BFirst =>
       cb <- job (setupEnvironment_resume lb db) ;;
       ca <- job (setupEnvironment_resume la da) ;;
       ret (la, lb, ca, cb)
   end)%js.

(** ** Vocabulary of the specification *)

(** The nodes of a hierarchy, depth first: a parent before its children,
    the children in declaration order. *)
Fixpoint nodes (o : Object3D) : list Props :=
  match o with
  | Obj p cs => p :: (cs ≫= nodes)
  end.

(** The same hierarchy with [f] applied to the properties of every node. *)
Fixpoint mapProps (f : Props -> Props) (o : Object3D) : Object3D :=
  match o with
  | Obj p cs => Obj (f p) (List.map (mapProps f) cs)
  end.

(** The materials a node references as a mesh, in the order of its
    material array. *)
Definition assignedMaterials (p : Props) : list Material :=
  match class p with
  | IsMesh _ (MatSingle m) => [m]
  | IsMesh _ (MatArray ms) => ms
  | _ => []
  end.

(** Every material reference of the model, in traversal order. *)
Definition encounters (model : Object3D) : list Material :=
  nodes model ≫= assignedMaterials.

(** The distinct material instances referenced across all mesh nodes. *)
Definition distinctMaterials (model : Object3D) : gset Material :=
  list_to_set (encounters model).

(** The values of [l] added to the set [s] one after the other. *)
Definition addAll (l : list Material) (s : JSSet.t Material)
    : JSSet.t Material :=
  fold_left (fun s mat => JSSet.add mat s) l s.

(** A sequence reduced to the first occurrence of each of its elements. *)
Fixpoint firstOccurrences_from (seen l : list Material) : list Material :=
  match l with
  | [] => []
  | v :: r =>
      if decide (v ∈ seen) then firstOccurrences_from seen r
      else v :: firstOccurrences_from (v :: seen) r
  end.

Definition firstOccurrences (l : list Material) : list Material :=
  firstOccurrences_from [] l.

(** [l] lists the distinct elements of [trace] in the order in which each
    is first met: whatever precedes an element of [l] in [l] is exactly
    what precedes its first occurrence in [trace]. *)
Definition firstEncounterOrder (trace l : list Material) : Prop :=
  (forall v, (v ∈ l) <-> (v ∈ trace)) /\
  forall before v after,
    l = before ++ v :: after ->
    exists t1 t2,
      trace = t1 ++ v :: t2 /\ (v ∉ t1) /\ (forall u, u ∈ t1 <-> u ∈ before).

(** ** [getUniqueModelMaterials] on what a mesh holds at run time

    [Mesh.material] is declared [Material | Material[]], and the code still
    tests it for a falsy value.  At run time the property, and every
    element of a material array, may hold [undefined] or [null].  [Runtime]
    has lines 207-223 on such hierarchies; of an object it keeps what these
    lines read: whether it is a [Mesh], its [material], its children. *)

Module Runtime.

(** What a [material] property, or an element of a material array,
    holds. *)
Inductive Value :=
| Undefined
| Null
| Mat (m : Material).

#[global] Instance Value_eq_dec : EqDecision Value.
Proof. solve_decision. Defined.

Inductive MaterialProperty :=
| Single (v : Value)
| Array (vs : list Value).

(** [child.material] as a condition: [undefined] and [null] are falsy; a
    material and an array, an empty one too, are truthy. *)
Definition truthy (p : MaterialProperty) : bool :=
  match p with
  | Single Undefined | Single Null => false
  | Single (Mat _) | Array _ => true
  end.

Record Props := mkProps {
  isMesh : bool;
  material : MaterialProperty
}.

#[warnings="-register-all"]
Inductive Object3D := Obj (props : Props) (children : list Object3D).

(** [object.traverse(callback)], for a callback that writes only to the
    state it closes over. *)
Fixpoint traverse {S : Type} (callback : Props -> S -> S) (o : Object3D)
    (s : S) : S :=
  match o with
  | Obj p cs =>
      (fix each (l : list Object3D) (s : S) : S :=
         match l with
         | [] => s
         | c :: r => each r (traverse callback c s)
         end) cs (callback p s)
  end.

(** The callback of lines 212-220. *)
Definition collectMaterials (child : Props) (materials : JSSet.t Value)
    : JSSet.t Value :=
  if isMesh child && truthy (material child)
  then match material child with
       | Array vs => fold_left (fun s mat => JSSet.add mat s) vs materials
       | Single v => JSSet.add v materials
       end
  else materials.

Definition getUniqueModelMaterials (model : Object3D) : list Value :=
  JSSet.toArray (traverse collectMaterials model JSSet.empty).

(** The nodes, depth first. *)
Fixpoint nodes (o : Object3D) : list Props :=
  match o with
  | Obj p cs => p :: (cs ≫= nodes)
  end.

Fixpoint mapProps (f : Props -> Props) (o : Object3D) : Object3D :=
  match o with
  | Obj p cs => Obj (f p) (List.map (mapProps f) cs)
  end.

(** What a node hands to the set: nothing unless it is a mesh with a
    truthy [material]; then the material, or the elements of the array as
    they are. *)
Definition references (p : Props) : list Value :=
  if isMesh p && truthy (material p)
  then match material p with
       | Array vs => vs
       | Single v => [v]
       end
  else [].

(** Whether the node is a mesh whose [material] is [undefined] or
    [null]. *)
Definition unassignedMesh (p : Props) : bool :=
  isMesh p && negb (truthy (material p)).

(** Such a mesh turned into an object that is no mesh; any other node
    kept. *)
Definition demoteUnassigned (p : Props) : Props :=
  if unassignedMesh p
  then {| isMesh := false; material := material p |}
  else p.

(** The hierarchy with every mesh of falsy [material] replaced, at the
    same place, by an object that is no mesh. *)
Definition withoutUnassignedMeshes (o : Object3D) : Object3D :=
  mapProps demoteUnassigned o.

Section Induction.

Variable P : Object3D -> Prop.
Hypothesis step : forall p cs, Forall P cs -> P (Obj p cs).

Fixpoint Object3D_rect_nested (o : Object3D) : P o :=
  match o with
  | Obj p cs =>
      step p cs
        ((fix each (l : list Object3D) : Forall P l :=
            match l with
            | [] => List.Forall_nil P
            | c :: r =>
                List.Forall_cons P c r (Object3D_rect_nested c) (each r)
            end) cs)
  end.

End Induction.

End Runtime.

(** A model of the declared type as it is at run time. *)
Definition runtimeSlot (m : MaterialSlot) : Runtime.MaterialProperty :=
  match m with
  | MatUndefined => Runtime.Single Runtime.Undefined
  | MatNull => Runtime.Single Runtime.Null
  | MatSingle v => Runtime.Single (Runtime.Mat v)
  | MatArray ms => Runtime.Array (Runtime.Mat <$> ms)
  end.

Definition runtimeProps (p : Props) : Runtime.Props :=
  {| Runtime.isMesh := isMesh p;
     Runtime.material :=
       match class p with
       | IsMesh _ m | IsLine _ m => runtimeSlot m
       | IsGroup => Runtime.Single Runtime.Undefined
       end |}.

Fixpoint runtimeView (o : Object3D) : Runtime.Object3D :=
  match o with
  | Obj p cs => Runtime.Obj (runtimeProps p) (List.map runtimeView cs)
  end.

(** A group of two meshes: one whose material array holds a material
    followed by [undefined], one whose [material] is [null]. *)
Definition holedMaterials : Runtime.Object3D :=
  Runtime.Obj (Runtime.mkProps false (Runtime.Single Runtime.Undefined))
    [ Runtime.Obj
        (Runtime.mkProps true
           (Runtime.Array [Runtime.Mat (MaterialRef 1); Runtime.Undefined]))
        [];
      Runtime.Obj (Runtime.mkProps true (Runtime.Single Runtime.Null)) [] ].

(** The URLs created and the URLs revoked in a run of events. *)
Definition created (evs : list Event) : list string :=
  omap (fun e => match e with CreateObjectURL u => Some u | _ => None end) evs.

Definition revoked (evs : list Event) : list string :=
  omap (fun e => match e with RevokeObjectURL u => Some u | _ => None end) evs.

(** The events of [w'] that [w] does not have yet. *)
Definition eventsSince (w w' : World) : list Event :=
  drop (length (events w)) (events w').

(** The bounding volume of the model in its current transform. *)
Definition boundingVolume (model : Object3D) : Box3.t := setFromObject model.

(** Its extent along each axis, and the largest of the three. *)
Definition extent (model : Object3D) : Vector3.t :=
  Box3.getSize (boundingVolume model).

Definition maxExtent (model : Object3D) : JS.number :=
  let size := extent model in
  JS.Math_max [Vector3.x size; Vector3.y size; Vector3.z size].

(** A number that is an infinity or NaN. *)
Definition nonFinite (v : JS.number) : Prop :=
  v = infinity \/ v = neg_infinity \/ v = nan.

(** ** Induction on the hierarchy *)

Section Object3D_induction.

Variable P : Object3D -> Prop.
Hypothesis step : forall p cs, Forall P cs -> P (Obj p cs).

Fixpoint Object3D_induction (o : Object3D) : P o :=
  match o with
  | Obj p cs =>
      step p cs
        ((fix each (l : list Object3D) : Forall P l :=
            match l with
            | [] => List.Forall_nil P
            | c :: r =>
                List.Forall_cons P c r (Object3D_induction c) (each r)
            end) cs)
  end.

End Object3D_induction.

(** ** Sample models *)

Definition group (position scale : Vector3.t) (children : list Object3D)
    : Object3D :=
  Obj (mkProps IsGroup position scale false false) children.

Definition mesh (geometry : BufferGeometry) (material : MaterialSlot)
    : Object3D :=
  Obj (mkProps (IsMesh geometry material)
         (Vector3.mk 0 0 0) (Vector3.mk 1 1 1) false false) [].

(** One mesh with the corners of the unit cube, under a group that has the
    identity transform: a model as the loader returns it. *)
Definition unitCube : Object3D :=
  group (Vector3.mk 0 0 0) (Vector3.mk 1 1 1)
    [mesh [Vector3.mk 0 0 0; Vector3.mk 1 1 1] (MatSingle (MaterialRef 0))].

(** One mesh with a single vertex. *)
Definition pointModel : Object3D :=
  group (Vector3.mk 0 0 0) (Vector3.mk 1 1 1)
    [mesh [Vector3.mk 1 2 3] (MatSingle (MaterialRef 0))].

(** A group without children. *)
Definition emptyModel : Object3D :=
  group (Vector3.mk 0 0 0) (Vector3.mk 1 1 1) [].

(** A cube of side 4 under a group that was scaled by 0.5 and lifted
    by 1. *)
Definition shrunkModel : Object3D :=
  group (Vector3.mk 0 1 0) (Vector3.mk 0.5 0.5 0.5)
    [mesh [Vector3.mk 0 0 0; Vector3.mk 4 4 4] (MatSingle (MaterialRef 0))].

(** Three meshes at two depths: a material shared between meshes, a
    material array, and a mesh without material. *)
Definition sharedMaterials : Object3D :=
  group (Vector3.mk 0 0 0) (Vector3.mk 1 1 1)
    [ mesh [] (MatSingle (MaterialRef 2));
      group (Vector3.mk 0 0 0) (Vector3.mk 1 1 1)
        [ mesh [] (MatArray [MaterialRef 1; MaterialRef 2; MaterialRef 3]);
          mesh [] MatNull ];
      mesh [] (MatSingle (MaterialRef 1)) ].

(** A texture once [setSceneEnvironment] has tagged its mapping. *)
Definition reflectionMapped (t : Texture) : Texture :=
  {| texture_id := texture_id t; mapping := EquirectangularReflectionMapping |}.

(** A session that has loaded nothing yet. *)
Definition freshWorld : World :=
  mkWorld (mkScene None NoBackground 0%float) [] 0 [].

(** Two uploads and what their decodes produce. *)
Definition uploadA : Request := mkRequest (AsFile (mkFile "a.hdr")) 0%float true.
Definition uploadB : Request := mkRequest (AsFile (mkFile "b.hdr")) 0%float true.
Definition textureA : Texture := mkTexture 1 UVMapping.
Definition textureB : Texture := mkTexture 2 UVMapping.

(** ** Several loads, and the browser's URL store *)

(** Every object URL the browser holds is one that
    [URL.createObjectURL] handed out earlier. *)
Definition wellFormedWorld (w : World) : Prop :=
  forall u, u ∈ objectURLs w ->
    exists k, k < nextObjectURL w /\ u = "blob:" +:+ pretty k.

(** The jobs that resume suspended calls of [setupEnvironment], each run
    to completion, in the order in which the decodes settle. *)
Definition settleAll (settled : list (EnvironmentLoad * Settled Texture))
    (w : World) : World :=
  fold_left (fun w ld => snd (setupEnvironment_resume ld.1 ld.2 w)) settled w.

Definition isRejected {A : Type} (d : Settled A) : Prop :=
  match d with
  | Rejected _ => True
  | Fulfilled _ => False
  end.

(** The [console.error] calls in a run of events. *)
Definition errorsLogged (evs : list Event) : list (string * JsError) :=
  omap (fun e => match e with
                 | ConsoleError m err => Some (m, err)
                 | _ => None
                 end) evs.

(** A model drawn with lines only: one line strip with a material of its
    own. *)
Definition wireModel : Object3D :=
  group (Vector3.mk 0 0 0) (Vector3.mk 1 1 1)
    [Obj (mkProps (IsLine [Vector3.mk 0 0 0; Vector3.mk 2 1 1]
                     (MatSingle (MaterialRef 7)))
            (Vector3.mk 0 0 0) (Vector3.mk 1 1 1) false false) []].

(** ** The lighting panel (Lighting.tsx)

    The component keeps its state in [lightSettings] and changes it through
    [setLightSettings(prev => ...)]: every handler is the function from the
    previous state to the next.  Of the state, the fields the component
    reads or writes are modelled. *)

Module Lighting.

Record LightSettings := mk {
  environmentMap : string;
  customHDR : option File;
  blurriness : option JS.number;
  useSkybox : bool
}.

(** [input.onchange] of [handleHDRUpload]: [files?.[0]], and the update
    only when there is a file. *)
Definition onHDRChosen (files : list File) (prev : LightSettings)
    : LightSettings :=
  match head files with
  | Some file =>
      {| environmentMap := "custom";
         customHDR := Some file;
         blurriness := blurriness prev;
         useSkybox := true |}
  | None => prev
  end.

(** [onValueChange] of the environment [Select]. *)
Definition onEnvironmentSelected (value : string) (prev : LightSettings)
    : LightSettings :=
  {| environmentMap := value;
     customHDR := None;
     blurriness := blurriness prev;
     useSkybox := useSkybox prev |}.

(** [onValueChange] of the [Slider]: [value[0]]. *)
Definition onBlurrinessChanged (value : list JS.number)
    (prev : LightSettings) : LightSettings :=
  {| environmentMap := environmentMap prev;
     customHDR := customHDR prev;
     blurriness := head value;
     useSkybox := useSkybox prev |}.

(** [onCheckedChange] of the skybox [Checkbox]. *)
Definition onSkyboxChecked (checked : bool) (prev : LightSettings)
    : LightSettings :=
  {| environmentMap := environmentMap prev;
     customHDR := customHDR prev;
     blurriness := blurriness prev;
     useSkybox := checked |}.

Inductive Action :=
| HDRChosen (files : list File)
| EnvironmentSelected (value : string)
| BlurrinessChanged (value : list JS.number)
| SkyboxChecked (checked : bool).

Definition handle (prev : LightSettings) (a : Action) : LightSettings :=
  match a with
  | HDRChosen files => onHDRChosen files prev
  | EnvironmentSelected value => onEnvironmentSelected value prev
  | BlurrinessChanged value => onBlurrinessChanged value prev
  | SkyboxChecked checked => onSkyboxChecked checked prev
  end.

(** The state after a sequence of user actions. *)
Definition run (actions : list Action) (s : LightSettings) : LightSettings :=
  fold_left handle actions s.

(** The values the [Select] offers: those of [ENV_MAPS], and "custom" when
    a custom HDR is held. *)
Definition selectItems (ENV_MAPS : list string) (s : LightSettings)
    : list string :=
  ENV_MAPS ++ match customHDR s with Some _ => ["custom"] | None => [] end.

(** The line below the [Select], shown when a custom HDR is held. *)
Definition loadedBanner (s : LightSettings) : option string :=
  match customHDR s with
  | Some file => Some ("Loaded: " +:+ file_name file)
  | None => None
  end.

End Lighting.

(** * Properties *)

(** ** IEEE 754 facts the claims rest on *)

Lemma nonFinite_of_spec (v : float) :
  (exists s, Prim2SF v = S754_infinity s) \/ Prim2SF v = S754_nan ->
  nonFinite v.
Proof.
  intros H. rewrite <- (SF2Prim_Prim2SF v).
  destruct H as [[s ->] | ->].
  - destruct s; [right; left | left]; reflexivity.
  - right; right; reflexivity.
Qed.

Lemma nonFinite_not_finite (v : float) : nonFinite v -> ~ JS.finite v.
Proof. unfold JS.finite. intros [-> | [-> | ->]]; discriminate. Qed.

Lemma div_zero_nonFinite (w : float) : nonFinite (w / 0)%float.
Proof.
  apply nonFinite_of_spec. rewrite div_spec.
  replace (Prim2SF 0) with (S754_zero false) by reflexivity.
  destruct (Prim2SF w) as [s | s | | s m e]; cbn; eauto.
Qed.

Lemma div_zero_positive (w : float) :
  (0 <? w)%float = true -> (w / 0)%float = infinity.
Proof.
  intros H. rewrite ltb_spec in H.
  apply Prim2SF_inj. rewrite div_spec.
  replace (Prim2SF 0) with (S754_zero false) in * by reflexivity.
  destruct (Prim2SF w) as [s | s | | s m e]; cbn in *; try discriminate;
    destruct s; try discriminate; reflexivity.
Qed.

Lemma div_zero_zero (w : float) :
  (w =? 0)%float = true -> (w / 0)%float = nan.
Proof.
  intros H. rewrite FloatAxioms.eqb_spec in H.
  apply Prim2SF_inj. rewrite div_spec.
  replace (Prim2SF 0) with (S754_zero false) in * by reflexivity.
  destruct (Prim2SF w) as [s | s | | s m e]; cbn in *; try discriminate;
    try reflexivity.
  all: destruct s; discriminate.
Qed.

Lemma opp_mul_infinity_nonFinite (c : float) :
  nonFinite (- c * infinity)%float.
Proof.
  apply nonFinite_of_spec. rewrite mul_spec, opp_spec.
  replace (Prim2SF infinity) with (S754_infinity false) by reflexivity.
  destruct (Prim2SF c) as [s | s | | s m e]; cbn; eauto.
Qed.

(** ** The geometry normalizer *)

(** On a model with the identity transform the normalizer does what its
    comment says: the unit cube ends up 3 units wide, centred on x and z,
    its bottom at y = 0. *)
Example centerAndScaleModel_unitCube :
  boundingVolume (centerAndScaleModel unitCube)
  = Box3.mk (Vector3.mk (-1.5) 0 (-1.5)) (Vector3.mk 1.5 3 1.5)
  /\ maxExtent (centerAndScaleModel unitCube) = 3%float.
Proof. split; reflexivity. Qed.

(** The empty model: the scale is +Infinity, the position (NaN, -Infinity,
    NaN). *)
Example centerAndScaleModel_emptyModel :
  props_of (centerAndScaleModel emptyModel)
  = mkProps IsGroup (Vector3.mk nan neg_infinity nan)
      (Vector3.mk infinity infinity infinity) false false.
Proof. reflexivity. Qed.

(** C1, as stated, fails: [pointModel] has zero extent on all three axes,
    and the call returns with the scale +Infinity written on every axis
    and the position -Infinity. *)
Lemma centerAndScaleModel_point_not_finite :
  extent pointModel = Vector3.mk 0 0 0
  /\ scale (props_of (centerAndScaleModel pointModel))
     = Vector3.mk infinity infinity infinity
  /\ position (props_of (centerAndScaleModel pointModel))
     = Vector3.mk neg_infinity neg_infinity neg_infinity
  /\ ~ Vector3.all_finite (scale (props_of (centerAndScaleModel pointModel))).
Proof.
  repeat split.
  intros (H & _). vm_compute in H. discriminate.
Qed.

(** C1, amended: for every model whose bounding volume has zero extent on
    all three axes, [centerAndScaleModel] raises no error; it returns the
    model with the scale +Infinity on the three axes and with every
    position coordinate an infinity or NaN, the rest untouched. *)
Theorem centerAndScaleModel_zero_extent (model : Object3D) :
  extent model = Vector3.mk 0 0 0 ->
  let p := props_of model in
  let p' := props_of (centerAndScaleModel model) in
  scale p' = Vector3.mk infinity infinity infinity
  /\ nonFinite (Vector3.x (position p'))
  /\ nonFinite (Vector3.y (position p'))
  /\ nonFinite (Vector3.z (position p'))
  /\ class p' = class p
  /\ children_of (centerAndScaleModel model) = children_of model.
Proof.
  intros H. destruct model as [p cs].
  unfold extent, boundingVolume in H.
  unfold centerAndScaleModel. rewrite H.
  replace (3 / JS.Math_max
                 [Vector3.x (Vector3.mk 0 0 0); Vector3.y (Vector3.mk 0 0 0);
                  Vector3.z (Vector3.mk 0 0 0)])%float
    with infinity by reflexivity.
  cbn [props_of children_of scale position class Vector3.x Vector3.y
       Vector3.z Vector3.setScalar].
  repeat split; apply opp_mul_infinity_nonFinite.
Qed.

Lemma centerAndScaleModel_zero_extent_witness :
  extent pointModel = Vector3.mk 0 0 0
  /\ scale (props_of (centerAndScaleModel pointModel))
     = Vector3.mk infinity infinity infinity.
Proof.
  split; [reflexivity |].
  exact (proj1 (centerAndScaleModel_zero_extent pointModel eq_refl)).
Defined.

(** C2, the code at a model that carries a transform of its own:
    [shrunkModel] has a bounding volume 2 units wide, and after one run
    of [centerAndScaleModel] its bounding volume is 6 units wide, reaches
    down to y = -1.5 and is centred on x = z = 1.5. *)
Theorem centerAndScaleModel_shrunkModel :
  maxExtent shrunkModel = 2%float
  /\ boundingVolume (centerAndScaleModel shrunkModel)
     = Box3.mk (Vector3.mk (-1.5) (-1.5) (-1.5)) (Vector3.mk 4.5 4.5 4.5)
  /\ maxExtent (centerAndScaleModel shrunkModel) = 6%float
  /\ Box3.getCenter (boundingVolume (centerAndScaleModel shrunkModel))
     = Vector3.mk 1.5 1.5 1.5.
Proof. repeat split. Qed.

(** C3, the code at the unit cube: the first run writes the scale 3 and
    the position (-1.5, -0, -1.5); a second run of the normalized model
    writes the scale 1 and the position (-0, -0, -0), which leaves the
    model 1 unit wide. *)
Theorem centerAndScaleModel_twice_unitCube :
  props_of (centerAndScaleModel unitCube)
  = mkProps IsGroup (Vector3.mk (-1.5) (-0) (-1.5)) (Vector3.mk 3 3 3)
      false false
  /\ props_of (centerAndScaleModel (centerAndScaleModel unitCube))
     = mkProps IsGroup (Vector3.mk (-0) (-0) (-0)) (Vector3.mk 1 1 1)
         false false
  /\ maxExtent (centerAndScaleModel (centerAndScaleModel unitCube)) = 1%float
  /\ centerAndScaleModel (centerAndScaleModel unitCube)
     <> centerAndScaleModel unitCube.
Proof.
  repeat split. intros H. vm_compute in H. discriminate.
Qed.

(** Why a second run undoes the first: whenever the first run has made
    the model 3 units wide, the second computes 3 / 3 and overwrites the
    scale with 1. *)
Lemma centerAndScaleModel_again_resets_scale (model : Object3D) :
  maxExtent (centerAndScaleModel model) = 3%float ->
  scale (props_of (centerAndScaleModel (centerAndScaleModel model)))
  = Vector3.mk 1 1 1.
Proof.
  intros H. unfold maxExtent, extent, boundingVolume in H.
  unfold centerAndScaleModel at 1.
  destruct (centerAndScaleModel model) as [p cs] eqn:E.
  cbn [props_of scale]. rewrite H. reflexivity.
Qed.

(** ** The camera *)

(** C4, as stated, fails: for a surface 800 wide and 0 high [initCamera]
    returns a camera, and its aspect ratio is +Infinity. *)
Lemma initCamera_zero_height_infinite_aspect :
  clientHeight (mkDiv 800 0) = 0%float
  /\ PerspectiveCamera.aspect (initCamera (mkDiv 800 0)) = infinity
  /\ ~ JS.finite (PerspectiveCamera.aspect (initCamera (mkDiv 800 0))).
Proof. repeat split. intros H. vm_compute in H. discriminate. Qed.

(** A negative height is no error either: the aspect ratio is negative. *)
Example initCamera_negative_height :
  PerspectiveCamera.aspect (initCamera (mkDiv 800 (-400))) = (-2)%float.
Proof. reflexivity. Qed.

(** C4, amended: [initCamera] raises no error for any display surface,
    whatever its height; it returns the camera with the fixed field of
    view, clip planes and position, whose aspect ratio is the quotient
    [clientWidth / clientHeight] as JavaScript computes it.  For a surface
    of height zero that quotient is not finite: +Infinity for a positive
    width, NaN for a zero width. *)
Theorem initCamera_zero_height (mountNode : HTMLDivElement) :
  let camera := initCamera mountNode in
  PerspectiveCamera.aspect camera
  = (clientWidth mountNode / clientHeight mountNode)%float
  /\ PerspectiveCamera.fov camera = 75%float
  /\ PerspectiveCamera.far camera = 1000%float
  /\ PerspectiveCamera.position camera = Vector3.mk 5 3 5
  /\ (clientHeight mountNode = 0%float ->
      nonFinite (PerspectiveCamera.aspect camera)
      /\ ((0 <? clientWidth mountNode)%float = true ->
          PerspectiveCamera.aspect camera = infinity)
      /\ ((clientWidth mountNode =? 0)%float = true ->
          PerspectiveCamera.aspect camera = nan)).
Proof.
  cbn. split_and!; try reflexivity.
  intros H. rewrite H.
  split; [apply div_zero_nonFinite |].
  split; [apply div_zero_positive | apply div_zero_zero].
Qed.

Lemma initCamera_zero_height_witness :
  clientHeight (mkDiv 0 0) = 0%float
  /\ nonFinite (PerspectiveCamera.aspect (initCamera (mkDiv 0 0)))
  /\ PerspectiveCamera.aspect (initCamera (mkDiv 1024 0)) = infinity.
Proof.
  split; [reflexivity |]. split.
  - exact (proj1 (proj2 (proj2 (proj2 (proj2
             (initCamera_zero_height (mkDiv 0 0))))) eq_refl)).
  - exact (proj1 (proj2 (proj2 (proj2 (proj2 (proj2
             (initCamera_zero_height (mkDiv 1024 0))))) eq_refl)) eq_refl).
Defined.

(** ** The loaders *)

Lemma eventsSince_app (w w' : World) (l : list Event) :
  events w' = events w ++ l -> eventsSince w w' = l.
Proof. unfold eventsSince. intros ->. apply drop_app_length. Qed.

Lemma truthy_blob (s : string) : truthy ("blob:" +:+ s) = true.
Proof. reflexivity. Qed.

(** What resuming a suspended [setupEnvironment] does when the decode was
    rejected: the error is logged and rethrown, the URL of a [File] is
    revoked, the scene is not written. *)
Lemma setupEnvironment_resume_rejected (load : EnvironmentLoad)
    (e : JsError) (w : World) :
  let '(c, w') := setupEnvironment_resume load (Rejected e) w in
  c = Throw e
  /\ scene w' = scene w
  /\ events w'
     = events w
       ++ ConsoleError
            ("Error loading HDR environment: " +:+ show_file (env_file load)) e
          :: (if negb (is_string (env_file load)) && truthy (env_url load)
              then [RevokeObjectURL (env_url load)] else []).
Proof.
  unfold setupEnvironment_resume, try_finally, try_catch, bind, await, throw,
    console_error, log.
  destruct (negb (is_string (env_file load)) && truthy (env_url load));
    cbn; rewrite <- ?app_assoc; auto.
Qed.

(** C5: when the decode fails, [setupEnvironment] rethrows the decoder's
    error and the scene is as it was before the call: same environment
    texture, same background, same background blurriness.  The same holds
    for the job that resumes a suspended call, whatever ran in between. *)
Theorem setupEnvironment_failure_leaves_scene (file : FileArg)
    (blurriness : JS.number) (useSkybox : bool) (e : JsError) (w : World) :
  (let '(c, w') :=
     setupEnvironment file blurriness useSkybox (Rejected e) w in
   c = Throw e
   /\ scene w' = scene w
   /\ environment (scene w') = environment (scene w)
   /\ background (scene w') = background (scene w)
   /\ backgroundBlurriness (scene w') = backgroundBlurriness (scene w))
  /\ forall load w2,
       let '(c, w') := setupEnvironment_resume load (Rejected e) w2 in
       c = Throw e /\ scene w' = scene w2.
Proof.
  split.
  - unfold setupEnvironment, bind at 1.
    destruct (setupEnvironment_begin file blurriness useSkybox w)
      as [[load | e'] w1] eqn:Hbegin.
    + pose proof (setupEnvironment_resume_rejected load e w1) as H.
      destruct (setupEnvironment_resume load (Rejected e) w1) as [c w'].
      destruct H as (-> & Hs & _).
      assert (scene w1 = scene w) as Hw.
      { destruct file; cbn in Hbegin; inversion Hbegin; reflexivity. }
      rewrite Hs, Hw. auto.
    + destruct file; cbn in Hbegin; discriminate.
  - intros load w2.
    pose proof (setupEnvironment_resume_rejected load e w2) as H.
    destruct (setupEnvironment_resume load (Rejected e) w2) as [c w'].
    tauto.
Qed.

(** The events of a whole [loadGLTFModel]: one URL created, the error
    logged when the decode fails, the same URL revoked. *)
Lemma loadGLTFModel_events (file : File) (decoded : Settled GLTF) (w : World) :
  let url := "blob:" +:+ pretty (nextObjectURL w) in
  let '(c, w') := loadGLTFModel file decoded w in
  c = match decoded with Fulfilled g => Normal g | Rejected e => Throw e end
  /\ events w'
     = events w
       ++ CreateObjectURL url
          :: match decoded with
             | Fulfilled _ => []
             | Rejected e => [ConsoleError "Error loading GLTF model:" e]
             end
          ++ [RevokeObjectURL url].
Proof.
  destruct decoded as [g | e]; cbn; rewrite <- ?app_assoc; auto.
Qed.

(** The events of a whole [setupEnvironment]. *)
Lemma setupEnvironment_events (file : FileArg) (blurriness : JS.number)
    (useSkybox : bool) (decoded : Settled Texture) (w : World) :
  let url := "blob:" +:+ pretty (nextObjectURL w) in
  let '(c, w') := setupEnvironment file blurriness useSkybox decoded w in
  events w'
  = events w
    ++ (if is_string file then [] else [CreateObjectURL url])
    ++ match decoded with
       | Fulfilled _ => []
       | Rejected e =>
           [ConsoleError
              ("Error loading HDR environment: " +:+ show_file file) e]
       end
    ++ (if is_string file then [] else [RevokeObjectURL url]).
Proof.
  destruct file as [s | f], decoded as [t | e]; cbn;
    rewrite ?truthy_blob; cbn; rewrite <- ?app_assoc, ?app_nil_r; auto.
Qed.

(** C6: every load releases its temporary object URL exactly once, whether
    the decode succeeds or fails.  [loadGLTFModel] creates one URL and
    revokes that URL once, after creating it; [setupEnvironment] does the
    same for a [File] and creates and revokes nothing for a URL string. *)
Theorem object_url_released_exactly_once :
  (forall (file : File) (decoded : Settled GLTF) (w : World),
     let w' := snd (loadGLTFModel file decoded w) in
     exists url before after,
       eventsSince w w'
       = CreateObjectURL url :: before ++ RevokeObjectURL url :: after
       /\ created (eventsSince w w') = [url]
       /\ revoked (eventsSince w w') = [url])
  /\ (forall (f : File) (blurriness : JS.number) (useSkybox : bool)
        (decoded : Settled Texture) (w : World),
        let w' :=
          snd (setupEnvironment (AsFile f) blurriness useSkybox decoded w) in
        exists url before after,
          eventsSince w w'
          = CreateObjectURL url :: before ++ RevokeObjectURL url :: after
          /\ created (eventsSince w w') = [url]
          /\ revoked (eventsSince w w') = [url])
  /\ (forall (s : string) (blurriness : JS.number) (useSkybox : bool)
        (decoded : Settled Texture) (w : World),
        let w' :=
          snd (setupEnvironment (AsString s) blurriness useSkybox decoded w) in
        created (eventsSince w w') = [] /\ revoked (eventsSince w w') = []).
Proof.
  split; [| split].
  - intros file decoded w.
    pose proof (loadGLTFModel_events file decoded w) as H.
    destruct (loadGLTFModel file decoded w) as [c w']. cbn in *.
    destruct H as [_ H]. apply eventsSince_app in H. rewrite H.
    eexists _, _, []. split; [reflexivity |].
    destruct decoded; auto.
  - intros f blurriness useSkybox decoded w.
    pose proof (setupEnvironment_events (AsFile f) blurriness useSkybox
                  decoded w) as H.
    destruct (setupEnvironment (AsFile f) blurriness useSkybox decoded w)
      as [c w']. cbn in *.
    apply eventsSince_app in H. rewrite H.
    eexists _, _, []. split; [reflexivity |].
    destruct decoded; auto.
  - intros s blurriness useSkybox decoded w.
    pose proof (setupEnvironment_events (AsString s) blurriness useSkybox
                  decoded w) as H.
    destruct (setupEnvironment (AsString s) blurriness useSkybox decoded w)
      as [c w']. cbn in *.
    apply eventsSince_app in H. rewrite H.
    destruct decoded; auto.
Qed.

Lemma blob_url_inj (n m : nat) :
  "blob:" +:+ pretty n = "blob:" +:+ pretty m -> n = m.
Proof.
  intros H. apply (inj (String.app "blob:")) in H.
  apply (inj pretty) in H. exact H.
Qed.

Lemma blob_url_succ_ne (n : nat) :
  "blob:" +:+ pretty (S n) <> "blob:" +:+ pretty n.
Proof. intros H. apply blob_url_inj in H. lia. Qed.

(** What resuming a suspended [setupEnvironment] does when the decode was
    fulfilled: the texture is installed in the scene as it is at that
    moment, and the URL of a [File] is revoked. *)
Lemma setupEnvironment_resume_fulfilled (load : EnvironmentLoad)
    (t : Texture) (w : World) :
  let release :=
    negb (is_string (env_file load)) && truthy (env_url load) in
  setupEnvironment_resume load (Fulfilled t) w
  = (Normal (reflectionMapped t),
     {| scene :=
          fst (setSceneEnvironment (scene w) t (env_blurriness load)
                 (env_useSkybox load));
        objectURLs :=
          if release
          then filter (fun u => u <> env_url load) (objectURLs w)
          else objectURLs w;
        nextObjectURL := nextObjectURL w;
        events :=
          events w ++ (if release then [RevokeObjectURL (env_url load)] else [])
     |}).
Proof.
  unfold setupEnvironment_resume, try_finally, try_catch, bind, await, ret,
    installEnvironment.
  destruct (negb (is_string (env_file load)) && truthy (env_url load));
    cbn; rewrite ?app_nil_r; reflexivity.
Qed.

(** C7, as stated, fails: two uploads on a fresh scene, B started while
    A's decode is pending, B's decode settling first.  Once both have
    settled the scene's environment is A's texture. *)
Lemma overlappingLoads_stale_texture_installed :
  environment
    (scene (snd (overlappingLoads uploadA uploadB (Fulfilled textureA)
                   (Fulfilled textureB) BFirst freshWorld)))
  = Some (reflectionMapped textureA)
  /\ environment
       (scene (snd (overlappingLoads uploadA uploadB (Fulfilled textureA)
                      (Fulfilled textureB) BFirst freshWorld)))
     <> Some (reflectionMapped textureB).
Proof. split; [reflexivity | discriminate]. Qed.

Ltac since_events :=
  unfold eventsSince; cbn [events];
  rewrite <- ?app_assoc, ?drop_app_length.

Ltac count_urls :=
  cbn [created revoked omap list_omap app];
  rewrite ?filter_cons, ?filter_nil;
  repeat case_decide; try congruence;
  repeat match goal with
    | H : _ +:+ pretty (S ?n) = _ +:+ pretty ?n |- _ =>
        destruct (blob_url_succ_ne n H)
    | H : _ +:+ pretty ?n = _ +:+ pretty (S ?n) |- _ =>
        destruct (blob_url_succ_ne n (eq_sym H))
    end.

(** C7, amended: of two environment loads on one scene, B started before
    A's decode has settled and B's decode succeeding, the scene's
    environment once both have settled is B's texture, except when A's
    decode succeeds and settles after B's: then it is A's texture.
    Whatever the outcome of A's decode, the object URL of A, when A was
    given a [File], has by then been created once and revoked once and is
    no longer held. *)
Theorem overlappingLoads_last_settled_wins (a b : Request)
    (da : Settled Texture) (tB : Texture) (order : Resolution) (w : World) :
  let '(c, w') := overlappingLoads a b da (Fulfilled tB) order w in
  (exists la lb,
     c = Normal (la, lb,
                 match da with
                 | Fulfilled tA => Normal (reflectionMapped tA)
                 | Rejected e => Throw e
                 end,
                 Normal (reflectionMapped tB))
     /\ (is_string (req_file a) = false ->
         filter (fun u => u = env_url la) (created (eventsSince w w'))
         = [env_url la]
         /\ filter (fun u => u = env_url la) (revoked (eventsSince w w'))
            = [env_url la]
         /\ env_url la ∉ objectURLs w'))
  /\ environment (scene w')
     = Some (reflectionMapped
               match order, da with
               | BFirst, Fulfilled tA => tA
               | _, _ => tB
               end).
Proof.
  destruct a as [[sa | fa] ba ka], b as [[sb | fb] bb kb], da as [tA | e],
    order;
    unfold overlappingLoads, bind, job, setupEnvironment_begin, ret,
      URL_createObjectURL; cbn;
    rewrite ?truthy_blob; cbn.
  all: split; [| reflexivity].
  all: eexists _, _; split; [reflexivity |].
  all: intros Hfile; try discriminate Hfile; cbn [env_url].
  all: since_events.
  all: split; [count_urls | split; [count_urls |]].
  all: repeat case_decide;
    rewrite ?list_elem_of_filter, ?elem_of_cons, ?list_elem_of_filter;
    tauto.
Qed.

Lemma overlappingLoads_last_settled_wins_witness :
  is_string (req_file uploadA) = false
  /\ environment
       (scene (snd (overlappingLoads uploadA uploadB (Fulfilled textureA)
                      (Fulfilled textureB) AFirst freshWorld)))
     = Some (reflectionMapped textureB).
Proof.
  split; [reflexivity |].
  pose proof (overlappingLoads_last_settled_wins uploadA uploadB
                (Fulfilled textureA) textureB AFirst freshWorld) as H.
  destruct (overlappingLoads uploadA uploadB (Fulfilled textureA)
              (Fulfilled textureB) AFirst freshWorld) as [c w'].
  exact (proj2 H).
Defined.

(** ** Traversal *)

Lemma traverse_Obj {S : Type} (callback : Props -> S -> Props * S)
    (p : Props) (cs : list Object3D) (s : S) :
  traverse callback (Obj p cs) s
  = let '(p', s1) := callback p s in
    let '(cs', s2) := traverseChildren callback cs s1 in
    (Obj p' cs', s2).
Proof. reflexivity. Qed.

(** The state a traversal ends in: the callback folded over the nodes in
    depth-first order. *)
Lemma traverse_state {S : Type} (callback : Props -> S -> Props * S)
    (o : Object3D) :
  forall s,
    snd (traverse callback o s)
    = fold_left (fun s p => snd (callback p s)) (nodes o) s.
Proof.
  induction o as [p cs IH] using Object3D_induction. intros s.
  rewrite traverse_Obj. cbn [nodes fold_left].
  destruct (callback p s) as [p' s1]. cbn [snd].
  assert (forall s, snd (traverseChildren callback cs s)
                    = fold_left (fun s p => snd (callback p s))
                        (cs ≫= nodes) s) as Hcs.
  { clear s s1. induction IH as [| c r Hc _ IHr]; intros s; [reflexivity |].
    cbn [traverseChildren]. rewrite bind_cons, fold_left_app.
    specialize (Hc s). destruct (traverse callback c s) as [c' s'].
    specialize (IHr s'). destruct (traverseChildren callback r s') as [r' s''].
    cbn [snd] in *. rewrite <- Hc. exact IHr. }
  specialize (Hcs s1). destruct (traverseChildren callback cs s1) as [cs' s2].
  exact Hcs.
Qed.

(** The hierarchy a traversal leaves, for a callback that updates a node
    by [f] whatever its state. *)
Lemma traverse_tree {S : Type} (callback : Props -> S -> Props * S)
    (f : Props -> Props) (o : Object3D) :
  (forall p s, fst (callback p s) = f p) ->
  forall s, fst (traverse callback o s) = mapProps f o.
Proof.
  intros Hf. induction o as [p cs IH] using Object3D_induction. intros s.
  rewrite traverse_Obj. cbn [mapProps].
  specialize (Hf p s). destruct (callback p s) as [p' s1]. cbn [fst] in Hf.
  assert (forall s, fst (traverseChildren callback cs s)
                    = List.map (mapProps f) cs) as Hcs.
  { clear s s1. induction IH as [| c r Hc _ IHr]; intros s; [reflexivity |].
    cbn [traverseChildren List.map].
    specialize (Hc s). destruct (traverse callback c s) as [c' s'].
    specialize (IHr s'). destruct (traverseChildren callback r s') as [r' s''].
    cbn [fst] in *. congruence. }
  specialize (Hcs s1). destruct (traverseChildren callback cs s1) as [cs' s2].
  cbn [fst] in *. congruence.
Qed.

Lemma mapProps_id (f : Props -> Props) (o : Object3D) :
  (forall p, f p = p) -> mapProps f o = o.
Proof.
  intros Hf. induction o as [p cs IH] using Object3D_induction.
  cbn [mapProps]. rewrite Hf. f_equal.
  induction IH as [| c r Hc _ IHr]; [reflexivity |].
  cbn [List.map]. congruence.
Qed.

Lemma mapProps_mapProps (f g : Props -> Props) (o : Object3D) :
  mapProps f (mapProps g o) = mapProps (fun p => f (g p)) o.
Proof.
  induction o as [p cs IH] using Object3D_induction.
  cbn [mapProps]. f_equal.
  induction IH as [| c r Hc _ IHr]; [reflexivity |].
  cbn [List.map]. congruence.
Qed.

Lemma mapProps_ext (f g : Props -> Props) (o : Object3D) :
  (forall p, f p = g p) -> mapProps f o = mapProps g o.
Proof.
  intros Hfg. induction o as [p cs IH] using Object3D_induction.
  cbn [mapProps]. rewrite Hfg. f_equal.
  induction IH as [| c r Hc _ IHr]; [reflexivity |].
  cbn [List.map]. congruence.
Qed.

Lemma nodes_mapProps (f : Props -> Props) (o : Object3D) :
  nodes (mapProps f o) = f <$> nodes o.
Proof.
  induction o as [p cs IH] using Object3D_induction.
  cbn [mapProps nodes]. rewrite fmap_cons. f_equal.
  induction IH as [| c r Hc _ IHr]; [reflexivity |].
  cbn [List.map]. rewrite !bind_cons, fmap_app. congruence.
Qed.

(** ** The shadow configurator *)

Lemma enableModelShadows_mapProps (model : Object3D) :
  enableModelShadows model
  = mapProps (fun p => fst (enableShadows p tt)) model.
Proof.
  unfold enableModelShadows. apply traverse_tree. intros p []. reflexivity.
Qed.

Lemma enableShadows_twice (p : Props) :
  fst (enableShadows (fst (enableShadows p tt)) tt) = fst (enableShadows p tt).
Proof.
  unfold enableShadows, isMesh. destruct p as [[g m | g m |] ? ? ? ?]; reflexivity.
Qed.

(** C9: after [enableModelShadows] every mesh node of the hierarchy has
    [castShadow] and [receiveShadow] set; the hierarchy is the one it was,
    node for node, with the nodes that are not meshes untouched; and a
    second run changes nothing. *)
Theorem enableModelShadows_sets_every_mesh (model : Object3D) :
  Forall (fun p => isMesh p = true ->
                   castShadow p = true /\ receiveShadow p = true)
    (nodes (enableModelShadows model))
  /\ Forall2 (fun p p' =>
                class p' = class p /\ position p' = position p
                /\ scale p' = scale p /\ (isMesh p = false -> p' = p))
       (nodes model) (nodes (enableModelShadows model))
  /\ enableModelShadows (enableModelShadows model) = enableModelShadows model.
Proof.
  rewrite !enableModelShadows_mapProps, nodes_mapProps. repeat split.
  - apply Forall_fmap, Forall_true. intros p. unfold enableShadows, isMesh.
    destruct p as [[g m | g m |] ? ? ? ?]; cbn; auto; discriminate.
  - apply Forall2_fmap_r, Forall_Forall2_diag, Forall_true. intros p.
    unfold enableShadows, isMesh.
    destruct p as [[g m | g m |] ? ? ? ?]; cbn; auto; repeat split; discriminate.
  - rewrite mapProps_mapProps. apply mapProps_ext, enableShadows_twice.
Qed.

Lemma enableModelShadows_sets_every_mesh_witness :
  Forall (fun p => isMesh p = true ->
                   castShadow p = true /\ receiveShadow p = true)
    (nodes (enableModelShadows sharedMaterials))
  /\ enableModelShadows (enableModelShadows sharedMaterials)
     = enableModelShadows sharedMaterials.
Proof.
  split.
  - exact (proj1 (enableModelShadows_sets_every_mesh sharedMaterials)).
  - exact (proj2 (proj2 (enableModelShadows_sets_every_mesh sharedMaterials))).
Defined.

(** ** The material collector *)

Lemma elem_of_add (v u : Material) (s : JSSet.t Material) :
  u ∈ JSSet.add v s <-> u = v \/ u ∈ s.
Proof.
  unfold JSSet.add. case_decide.
  - split; [auto | intros [-> | ?]; auto].
  - rewrite elem_of_app, list_elem_of_singleton. tauto.
Qed.

Lemma NoDup_add (v : Material) (s : JSSet.t Material) :
  NoDup s -> NoDup (JSSet.add v s).
Proof.
  intros Hs. unfold JSSet.add. case_decide; [exact Hs |].
  apply NoDup_app. repeat split; [exact Hs | | apply NoDup_singleton].
  intros u Hu ->%list_elem_of_singleton. contradiction.
Qed.

Lemma elem_of_addAll (l : list Material) :
  forall (s : JSSet.t Material) u, u ∈ addAll l s <-> u ∈ s \/ u ∈ l.
Proof.
  induction l as [| v r IH]; intros s u; cbn.
  - rewrite elem_of_nil. tauto.
  - fold (addAll r (JSSet.add v s)).
    rewrite IH, elem_of_add, elem_of_cons. tauto.
Qed.

Lemma NoDup_addAll (l : list Material) :
  forall s : JSSet.t Material, NoDup s -> NoDup (addAll l s).
Proof.
  induction l as [| v r IH]; intros s Hs; cbn; [exact Hs |].
  apply IH, NoDup_add, Hs.
Qed.

Lemma addAll_app (l k : list Material) (s : JSSet.t Material) :
  addAll (l ++ k) s = addAll k (addAll l s).
Proof. apply fold_left_app. Qed.

(** [firstOccurrences_from] looks at [seen] through membership only. *)
Lemma firstOccurrences_from_ext (l : list Material) :
  forall seen1 seen2,
    (forall u, u ∈ seen1 <-> u ∈ seen2) ->
    firstOccurrences_from seen1 l = firstOccurrences_from seen2 l.
Proof.
  induction l as [| v r IH]; intros seen1 seen2 H; cbn; [reflexivity |].
  destruct (decide (v ∈ seen1)) as [H1 | H1],
           (decide (v ∈ seen2)) as [H2 | H2];
    try (apply H in H1; contradiction);
    try (apply H in H2; contradiction).
  - apply IH, H.
  - f_equal. apply IH. intros u. rewrite !elem_of_cons, H. tauto.
Qed.

(** Adding a sequence to a set appends its first occurrences that the set
    does not hold. *)
Lemma addAll_firstOccurrences (l : list Material) :
  forall s : JSSet.t Material, addAll l s = s ++ firstOccurrences_from s l.
Proof.
  induction l as [| v r IH]; intros s; cbn.
  - symmetry. apply app_nil_r.
  - fold (addAll r (JSSet.add v s)). rewrite IH. unfold JSSet.add, JSSet.t.
    repeat case_decide; try contradiction; [reflexivity |].
    rewrite <- app_assoc. cbn. do 2 f_equal.
    apply firstOccurrences_from_ext. intros u.
    rewrite elem_of_app, list_elem_of_singleton, elem_of_cons. tauto.
Qed.

(** [firstOccurrences_from] keeps the first-encounter order. *)
Lemma firstOccurrences_from_order (trace : list Material) :
  forall seen before v after,
    firstOccurrences_from seen trace = before ++ v :: after ->
    exists t1 t2,
      trace = t1 ++ v :: t2 /\ (v ∉ t1) /\ (v ∉ seen)
      /\ (forall u, u ∈ t1 -> u ∈ seen \/ u ∈ before)
      /\ (forall u, u ∈ before -> u ∈ t1 /\ u ∉ seen).
Proof.
  induction trace as [| x r IH]; intros seen before v after H; cbn in H.
  - destruct before; discriminate.
  - destruct (decide (x ∈ seen)) as [Hx | Hx].
    + destruct (IH _ _ _ _ H) as (t1 & t2 & -> & Hv1 & Hvs & Hin & Hb).
      exists (x :: t1), t2. split_and!.
      * reflexivity.
      * rewrite not_elem_of_cons. split; [congruence | exact Hv1].
      * exact Hvs.
      * intros u [-> | Hu]%elem_of_cons; auto.
      * intros u Hu. rewrite elem_of_cons. split; [right |]; apply Hb, Hu.
    + destruct before as [| y before'].
      * injection H as -> _. exists [], r.
        split_and!; auto using not_elem_of_nil;
          intros u Hu%elem_of_nil; contradiction.
      * injection H as -> H.
        destruct (IH _ _ _ _ H) as (t1 & t2 & -> & Hv1 & Hvs & Hin & Hb).
        rewrite not_elem_of_cons in Hvs. destruct Hvs as [Hvy Hvs].
        exists (y :: t1), t2. split_and!.
        -- reflexivity.
        -- rewrite not_elem_of_cons. auto.
        -- exact Hvs.
        -- intros u [-> | Hu]%elem_of_cons.
           ++ right. apply elem_of_cons. auto.
           ++ destruct (Hin u Hu) as [[-> | Hs]%elem_of_cons | Hbf].
              ** right. apply elem_of_cons. auto.
              ** auto.
              ** right. apply elem_of_cons. auto.
        -- intros u [-> | Hu]%elem_of_cons.
           ++ split; [apply elem_of_cons; auto | exact Hx].
           ++ destruct (Hb u Hu) as [Ht Hn]. rewrite not_elem_of_cons in Hn.
              split; [apply elem_of_cons; auto | tauto].
Qed.

Lemma elem_of_firstOccurrences (trace : list Material) (v : Material) :
  v ∈ firstOccurrences trace <-> v ∈ trace.
Proof.
  unfold firstOccurrences.
  pose proof (addAll_firstOccurrences trace []) as H. cbn in H.
  rewrite <- H, elem_of_addAll, elem_of_nil. tauto.
Qed.

Lemma firstOccurrences_order (trace : list Material) :
  firstEncounterOrder trace (firstOccurrences trace).
Proof.
  split; [intros v; apply elem_of_firstOccurrences |].
  intros before v after H.
  destruct (firstOccurrences_from_order trace [] before v after H)
    as (t1 & t2 & Ht & Hv & _ & Hin & Hb).
  exists t1, t2. split_and!; auto.
  intros u. split.
  - intros Hu. destruct (Hin u Hu) as [Hn%elem_of_nil | ?]; [contradiction | auto].
  - intros Hu. apply Hb, Hu.
Qed.

Lemma collectMaterials_addAll (p : Props) (s : JSSet.t Material) :
  collectMaterials p s = (p, addAll (assignedMaterials p) s).
Proof.
  unfold collectMaterials, assignedMaterials.
  destruct (class p) as [g [| | m | ms] | g m |]; reflexivity.
Qed.

Lemma fold_collectMaterials (ps : list Props) :
  forall s : JSSet.t Material,
    fold_left (fun s p => snd (collectMaterials p s)) ps s
    = addAll (ps ≫= assignedMaterials) s.
Proof.
  induction ps as [| p r IH]; intros s; [reflexivity |].
  cbn [fold_left]. rewrite bind_cons, addAll_app, IH, collectMaterials_addAll.
  reflexivity.
Qed.

(** The array returned: the encounters added to the empty set. *)
Lemma getUniqueModelMaterials_addAll (model : Object3D) :
  getUniqueModelMaterials model = addAll (encounters model) JSSet.empty.
Proof.
  unfold getUniqueModelMaterials, getUniqueModelMaterials_run.
  pose proof (traverse_state collectMaterials model JSSet.empty) as H.
  destruct (traverse collectMaterials model JSSet.empty) as [model' s].
  cbn [snd] in *. unfold JSSet.toArray. rewrite H.
  apply fold_collectMaterials.
Qed.

(** C8: the array [getUniqueModelMaterials] returns has no material twice;
    its length is the number of distinct materials referenced by the mesh
    nodes; it lists them in the order in which the depth-first traversal
    (parent before children, children in declaration order) first meets
    them; and the model is the same after the call. *)
Theorem getUniqueModelMaterials_unique_in_encounter_order (model : Object3D) :
  NoDup (getUniqueModelMaterials model)
  /\ length (getUniqueModelMaterials model) = size (distinctMaterials model)
  /\ getUniqueModelMaterials model = firstOccurrences (encounters model)
  /\ firstEncounterOrder (encounters model) (getUniqueModelMaterials model)
  /\ fst (getUniqueModelMaterials_run model) = model.
Proof.
  assert (getUniqueModelMaterials model = firstOccurrences (encounters model))
    as Hfirst.
  { rewrite getUniqueModelMaterials_addAll, addAll_firstOccurrences.
    reflexivity. }
  assert (NoDup (getUniqueModelMaterials model)) as Hnodup.
  { rewrite getUniqueModelMaterials_addAll.
    apply NoDup_addAll, NoDup_nil_2. }
  split_and!.
  - exact Hnodup.
  - rewrite <- (size_list_to_set (C := gset Material)) by exact Hnodup.
    unfold distinctMaterials. f_equal. apply set_eq. intros v.
    rewrite !elem_of_list_to_set, Hfirst. apply elem_of_firstOccurrences.
  - exact Hfirst.
  - rewrite Hfirst. apply firstOccurrences_order.
  - unfold getUniqueModelMaterials_run.
    pose proof (traverse_tree collectMaterials (fun p => p) model) as H.
    destruct (traverse collectMaterials model JSSet.empty) as [model' s] eqn:E.
    cbn [fst]. specialize (H (fun p s => f_equal fst (collectMaterials_addAll p s))
                             JSSet.empty).
    rewrite E in H. cbn [fst] in H. rewrite H.
    apply mapProps_id. reflexivity.
Qed.

Example getUniqueModelMaterials_sharedMaterials :
  getUniqueModelMaterials sharedMaterials
  = [MaterialRef 2; MaterialRef 1; MaterialRef 3].
Proof. reflexivity. Qed.

(** ** The material collector on run-time values *)

Lemma runtime_traverse_fold {S : Type} (callback : Runtime.Props -> S -> S)
    (o : Runtime.Object3D) :
  forall s,
    Runtime.traverse callback o s
    = fold_left (fun s p => callback p s) (Runtime.nodes o) s.
Proof.
  induction o as [p cs IH] using Runtime.Object3D_rect_nested. intros s.
  cbn [Runtime.traverse Runtime.nodes fold_left].
  generalize (callback p s) as s1.
  induction IH as [| c r Hc _ IHr]; intros s1; [reflexivity |].
  rewrite bind_cons, fold_left_app, <- Hc. apply IHr.
Qed.

Lemma runtime_nodes_mapProps (f : Runtime.Props -> Runtime.Props)
    (o : Runtime.Object3D) :
  Runtime.nodes (Runtime.mapProps f o) = f <$> Runtime.nodes o.
Proof.
  induction o as [p cs IH] using Runtime.Object3D_rect_nested.
  cbn [Runtime.mapProps Runtime.nodes]. rewrite fmap_cons. f_equal.
  induction IH as [| c r Hc _ IHr]; [reflexivity |].
  cbn [List.map]. rewrite !bind_cons, fmap_app. congruence.
Qed.

Lemma elem_of_add_value (v u : Runtime.Value) (s : JSSet.t Runtime.Value) :
  u ∈ JSSet.add v s <-> u = v \/ u ∈ s.
Proof.
  unfold JSSet.add. case_decide.
  - split; [auto | intros [-> | ?]; auto].
  - rewrite elem_of_app, list_elem_of_singleton. tauto.
Qed.

Lemma elem_of_add_values (l : list Runtime.Value) :
  forall (s : JSSet.t Runtime.Value) u,
    u ∈ fold_left (fun s mat => JSSet.add mat s) l s <-> u ∈ s \/ u ∈ l.
Proof.
  induction l as [| v r IH]; intros s u; cbn [fold_left].
  - rewrite elem_of_nil. tauto.
  - rewrite IH, elem_of_add_value, elem_of_cons. tauto.
Qed.

Lemma runtime_collect_references (p : Runtime.Props)
    (s : JSSet.t Runtime.Value) :
  Runtime.collectMaterials p s
  = fold_left (fun s mat => JSSet.add mat s) (Runtime.references p) s.
Proof.
  unfold Runtime.collectMaterials, Runtime.references.
  destruct (Runtime.isMesh p && Runtime.truthy (Runtime.material p));
    [| reflexivity].
  destruct (Runtime.material p); reflexivity.
Qed.

(** The array returned: the references of the nodes, in traversal order,
    added to the empty set. *)
Lemma runtime_getUniqueModelMaterials_fold (model : Runtime.Object3D) :
  Runtime.getUniqueModelMaterials model
  = fold_left (fun s mat => JSSet.add mat s)
      (Runtime.nodes model ≫= Runtime.references) JSSet.empty.
Proof.
  unfold Runtime.getUniqueModelMaterials, JSSet.toArray.
  rewrite runtime_traverse_fold.
  generalize (@JSSet.empty Runtime.Value) as s.
  induction (Runtime.nodes model) as [| p r IH]; intros s; [reflexivity |].
  cbn [fold_left]. rewrite bind_cons, fold_left_app, IH.
  rewrite runtime_collect_references. reflexivity.
Qed.

Lemma elem_of_runtime_references (p : Runtime.Props) (v : Runtime.Value) :
  v ∈ Runtime.references p
  <-> Runtime.isMesh p = true
      /\ ((Runtime.material p = Runtime.Single v /\ exists m, v = Runtime.Mat m)
          \/ exists vs, Runtime.material p = Runtime.Array vs /\ v ∈ vs).
Proof.
  unfold Runtime.references.
  destruct (Runtime.isMesh p); cbn [andb].
  - destruct (Runtime.material p) as [[| | m] | vs]; cbn [Runtime.truthy].
    + rewrite elem_of_nil. split; [tauto |].
      intros (_ & [(H & m & ->) | (vs & H & _)]); discriminate.
    + rewrite elem_of_nil. split; [tauto |].
      intros (_ & [(H & m & ->) | (vs & H & _)]); discriminate.
    + rewrite list_elem_of_singleton. split.
      * intros ->. eauto 6.
      * intros (_ & [(H & _) | (vs & H & _)]); congruence.
    + split.
      * intros H. eauto 6.
      * intros (_ & [(H & _) | (vs' & H & Hv)]); [discriminate |].
        injection H as ->. exact Hv.
  - rewrite elem_of_nil. split; [tauto |]. intros [H _]. discriminate.
Qed.

Lemma runtime_references_demoteUnassigned (p : Runtime.Props) :
  Runtime.references (Runtime.demoteUnassigned p) = Runtime.references p.
Proof.
  unfold Runtime.demoteUnassigned, Runtime.unassignedMesh, Runtime.references.
  destruct (Runtime.isMesh p) eqn:Hm,
           (Runtime.truthy (Runtime.material p)) eqn:Ht;
    cbn; rewrite ?Hm, ?Ht; reflexivity.
Qed.

(** On a model of the declared type the run-time function returns what
    [getUniqueModelMaterials] returns. *)
Lemma runtime_getUniqueModelMaterials_typed (model : Object3D) :
  Runtime.getUniqueModelMaterials (runtimeView model)
  = Runtime.Mat <$> getUniqueModelMaterials model.
Proof.
  rewrite runtime_getUniqueModelMaterials_fold, getUniqueModelMaterials_addAll.
  assert (Runtime.nodes (runtimeView model) = runtimeProps <$> nodes model)
    as ->.
  { induction model as [p cs IH] using Object3D_induction.
    cbn [runtimeView Runtime.nodes nodes]. rewrite fmap_cons. f_equal.
    induction IH as [| c r Hc _ IHr]; [reflexivity |].
    cbn [List.map]. rewrite !bind_cons, fmap_app. congruence. }
  rewrite list_fmap_bind.
  assert ((nodes model ≫= Runtime.references ∘ runtimeProps)
          = Runtime.Mat <$> encounters model) as ->.
  { unfold encounters. induction (nodes model) as [| p r IH]; [reflexivity |].
    rewrite !bind_cons, fmap_app, IH. f_equal.
    unfold compose, Runtime.references, runtimeProps, assignedMaterials, isMesh.
    cbn [Runtime.isMesh Runtime.material].
    destruct (class p) as [g [| | m | ms] | g m |]; reflexivity. }
  change (@JSSet.empty Runtime.Value)
    with (Runtime.Mat <$> (@JSSet.empty Material)).
  generalize (@JSSet.empty Material) as s.
  induction (encounters model) as [| v r IH]; intros s; [reflexivity |].
  cbn [fmap list_fmap fold_left addAll].
  fold (addAll r (JSSet.add v s)). rewrite <- IH. f_equal.
  unfold JSSet.add. repeat case_decide.
  - reflexivity.
  - exfalso. apply H0. apply list_elem_of_fmap in H as (u & Hu & Hin).
    injection Hu as ->. exact Hin.
  - exfalso. apply H. apply list_elem_of_fmap. eauto.
  - rewrite fmap_app. reflexivity.
Qed.

(** C10, as stated, fails: the material array [[m1, undefined]] of a mesh
    is added element by element, and the array returned holds
    [undefined]. *)
Lemma getUniqueModelMaterials_undefined_entry :
  Runtime.getUniqueModelMaterials holedMaterials
  = [Runtime.Mat (MaterialRef 1); Runtime.Undefined]
  /\ Runtime.Undefined ∈ Runtime.getUniqueModelMaterials holedMaterials.
Proof.
  split; [reflexivity |].
  apply elem_of_cons. right. apply elem_of_cons. left. reflexivity.
Qed.

(** C10, amended: a mesh whose [material] is [null] or [undefined] is
    skipped: the callback leaves the set as it is at such a node, and the
    array returned is the one returned for the model in which these meshes
    are no meshes.  The entries of the array are the materials of the
    meshes and the elements of their material arrays, added as they are:
    the array has no [null] and no [undefined] entry provided no material
    array of a mesh holds one. *)
Theorem getUniqueModelMaterials_runtime_entries (model : Runtime.Object3D) :
  (forall p s,
     Runtime.unassignedMesh p = true -> Runtime.collectMaterials p s = s)
  /\ Runtime.getUniqueModelMaterials (Runtime.withoutUnassignedMeshes model)
     = Runtime.getUniqueModelMaterials model
  /\ (forall v,
        v ∈ Runtime.getUniqueModelMaterials model
        <-> exists p,
              p ∈ Runtime.nodes model
              /\ Runtime.isMesh p = true
              /\ ((Runtime.material p = Runtime.Single v
                   /\ exists m, v = Runtime.Mat m)
                  \/ exists vs,
                       Runtime.material p = Runtime.Array vs /\ v ∈ vs))
  /\ ((forall p vs,
         p ∈ Runtime.nodes model ->
         Runtime.isMesh p = true ->
         Runtime.material p = Runtime.Array vs ->
         (Runtime.Undefined ∉ vs) /\ (Runtime.Null ∉ vs)) ->
      (Runtime.Undefined ∉ Runtime.getUniqueModelMaterials model)
      /\ (Runtime.Null ∉ Runtime.getUniqueModelMaterials model)).
Proof.
  assert (forall v,
            v ∈ Runtime.getUniqueModelMaterials model
            <-> exists p,
                  p ∈ Runtime.nodes model
                  /\ Runtime.isMesh p = true
                  /\ ((Runtime.material p = Runtime.Single v
                       /\ exists m, v = Runtime.Mat m)
                      \/ exists vs,
                           Runtime.material p = Runtime.Array vs /\ v ∈ vs))
    as Hentries.
  { intros v. rewrite runtime_getUniqueModelMaterials_fold, elem_of_add_values.
    unfold JSSet.empty. rewrite elem_of_nil, list_elem_of_bind. split.
    - intros [[] | (p & Hv & Hp)].
      apply elem_of_runtime_references in Hv. eauto.
    - intros (p & Hp & Hv). right. exists p. split; [| exact Hp].
      apply elem_of_runtime_references. exact Hv. }
  split_and!.
  - intros p s H. unfold Runtime.unassignedMesh in H.
    apply andb_true_iff in H as [Hm Ht]. apply negb_true_iff in Ht.
    unfold Runtime.collectMaterials. rewrite Hm, Ht. reflexivity.
  - rewrite !runtime_getUniqueModelMaterials_fold.
    unfold Runtime.withoutUnassignedMeshes.
    rewrite runtime_nodes_mapProps, list_fmap_bind. f_equal.
    apply list_bind_ext; [| reflexivity].
    intros p. apply runtime_references_demoteUnassigned.
  - exact Hentries.
  - intros Harrays. split.
    + intros (p & Hp & Hm & [(_ & m & Hv) | (vs & Hvs & Hin)])%Hentries;
        [discriminate |].
      destruct (Harrays p vs Hp Hm Hvs) as [Hu _]. contradiction.
    + intros (p & Hp & Hm & [(_ & m & Hv) | (vs & Hvs & Hin)])%Hentries;
        [discriminate |].
      destruct (Harrays p vs Hp Hm Hvs) as [_ Hn]. contradiction.
Qed.

Lemma getUniqueModelMaterials_runtime_entries_witness :
  Runtime.unassignedMesh (Runtime.mkProps true (Runtime.Single Runtime.Null))
  = true
  /\ Runtime.collectMaterials
       (Runtime.mkProps true (Runtime.Single Runtime.Null))
       [Runtime.Mat (MaterialRef 1)]
     = [Runtime.Mat (MaterialRef 1)]
  /\ (Runtime.Undefined
      ∉ Runtime.getUniqueModelMaterials (runtimeView sharedMaterials)).
Proof.
  split; [reflexivity |]. split.
  - exact (proj1 (getUniqueModelMaterials_runtime_entries holedMaterials)
             (Runtime.mkProps true (Runtime.Single Runtime.Null))
             [Runtime.Mat (MaterialRef 1)] eq_refl).
  - refine (proj1 (proj2 (proj2 (proj2
              (getUniqueModelMaterials_runtime_entries
                 (runtimeView sharedMaterials)))) _)).
    intros p vs Hp Hm Hvs.
    cbn in Hp. repeat (apply elem_of_cons in Hp as [-> | Hp]);
      try (apply elem_of_nil in Hp; destruct Hp);
      cbn in Hvs; try discriminate Hvs.
    injection Hvs as <-.
    split; intros H; repeat (apply elem_of_cons in H as [H | H];
      [discriminate H |]); apply elem_of_nil in H; exact H.
Defined.

(** * Further properties *)

(** ** The loaders, one call *)

(** Everything a resumed [setupEnvironment] does to the world, for both
    outcomes of the decode. *)
Lemma setupEnvironment_resume_world (load : EnvironmentLoad)
    (d : Settled Texture) (w : World) :
  let release :=
    negb (is_string (env_file load)) && truthy (env_url load) in
  setupEnvironment_resume load d w
  = (match d with
     | Fulfilled t => Normal (reflectionMapped t)
     | Rejected e => Throw e
     end,
     {| scene :=
          match d with
          | Fulfilled t =>
              fst (setSceneEnvironment (scene w) t (env_blurriness load)
                     (env_useSkybox load))
          | Rejected _ => scene w
          end;
        objectURLs :=
          if release
          then filter (fun u => u <> env_url load) (objectURLs w)
          else objectURLs w;
        nextObjectURL := nextObjectURL w;
        events :=
          events w
          ++ match d with
             | Fulfilled _ => []
             | Rejected e =>
                 [ConsoleError
                    ("Error loading HDR environment: "
                     +:+ show_file (env_file load)) e]
             end
          ++ (if release then [RevokeObjectURL (env_url load)] else [])
     |}).
Proof.
  destruct d as [t | e].
  - rewrite setupEnvironment_resume_fulfilled. reflexivity.
  - unfold setupEnvironment_resume, try_finally, try_catch, bind, await,
      throw, console_error, log.
    destruct (negb (is_string (env_file load)) && truthy (env_url load));
      cbn; rewrite <- ?app_assoc; reflexivity.
Qed.

(** X1: when the decode succeeds, [setupEnvironment] returns the decoded
    texture tagged with the equirectangular reflection mapping, and the
    scene has that texture as environment, as background when the skybox
    is wanted and the white colour otherwise, and the blurriness given;
    nothing is logged as an error. *)
Theorem setupEnvironment_success (file : FileArg) (blurriness : JS.number)
    (useSkybox : bool) (t : Texture) (w : World) :
  let '(c, w') :=
    setupEnvironment file blurriness useSkybox (Fulfilled t) w in
  c = Normal (reflectionMapped t)
  /\ texture_id (reflectionMapped t) = texture_id t
  /\ mapping (reflectionMapped t) = EquirectangularReflectionMapping
  /\ environment (scene w') = Some (reflectionMapped t)
  /\ background (scene w')
     = (if useSkybox then TextureBackground (reflectionMapped t)
        else ColorBackground 0xffffff%N)
  /\ backgroundBlurriness (scene w') = blurriness
  /\ errorsLogged (eventsSince w w') = [].
Proof.
  destruct file as [s | f];
    unfold setupEnvironment, setupEnvironment_begin, bind, ret,
      URL_createObjectURL; cbn -[setupEnvironment_resume];
    rewrite setupEnvironment_resume_world;
    cbn [scene events setSceneEnvironment fst env_blurriness env_useSkybox
         environment background backgroundBlurriness];
    split_and!; try reflexivity.
  all: unfold eventsSince; cbn [events]; 
    rewrite <- ?app_assoc, ?app_nil_r, ?drop_app_length, ?drop_all;
    cbn; rewrite ?truthy_blob; reflexivity.
Qed.

Lemma fresh_url_not_held (w : World) :
  wellFormedWorld w -> "blob:" +:+ pretty (nextObjectURL w) ∉ objectURLs w.
Proof.
  intros Hw Hin. destruct (Hw _ Hin) as (k & Hk & Heq).
  apply blob_url_inj in Heq. lia.
Qed.

Lemma filter_out_absent (url : string) (l : list string) :
  url ∉ l -> filter (fun u => u <> url) l = l.
Proof.
  induction l as [| x r IH]; intros H; [reflexivity |].
  apply not_elem_of_cons in H as [Hx Hr].
  rewrite filter_cons_True by congruence. f_equal. apply IH, Hr.
Qed.

Lemma filter_out_head (url : string) (l : list string) :
  filter (fun u => u <> url) (url :: l) = filter (fun u => u <> url) l.
Proof. apply filter_cons_False. intros H. apply H. reflexivity. Qed.

Lemma wellFormedWorld_next (w w' : World) :
  objectURLs w' = objectURLs w ->
  nextObjectURL w <= nextObjectURL w' ->
  wellFormedWorld w -> wellFormedWorld w'.
Proof.
  intros Hurls Hnext Hw u Hu. rewrite Hurls in Hu.
  destruct (Hw u Hu) as (k & Hk & ->). exists k. split; [lia | reflexivity].
Qed.

(** X2: in a browser whose held object URLs all come from
    [URL.createObjectURL], a whole [loadGLTFModel] and a whole
    [setupEnvironment] leave the set of held object URLs exactly as they
    found it, whether the decode succeeds or fails, and the browser stays
    in such a state: no call leaks its URL and none releases another
    one's. *)
Theorem loaders_leave_no_object_url (w : World) :
  wellFormedWorld w ->
  (forall (file : File) (d : Settled GLTF),
     let w' := snd (loadGLTFModel file d w) in
     objectURLs w' = objectURLs w /\ wellFormedWorld w')
  /\ (forall (file : FileArg) (blurriness : JS.number) (useSkybox : bool)
        (d : Settled Texture),
        let w' := snd (setupEnvironment file blurriness useSkybox d w) in
        objectURLs w' = objectURLs w /\ wellFormedWorld w').
Proof.
  intros Hw. pose proof (fresh_url_not_held w Hw) as Hfresh. split.
  - intros file d.
    assert (objectURLs (snd (loadGLTFModel file d w)) = objectURLs w
            /\ nextObjectURL w <= nextObjectURL (snd (loadGLTFModel file d w)))
      as [Hurls Hnext].
    { destruct d; cbn -[filter];
        rewrite filter_out_head, filter_out_absent by (exact Hfresh);
        split; solve [reflexivity | lia]. }
    split; [exact Hurls | exact (wellFormedWorld_next _ _ Hurls Hnext Hw)].
  - intros file blurriness useSkybox d.
    assert (objectURLs (snd (setupEnvironment file blurriness useSkybox d w))
            = objectURLs w
            /\ nextObjectURL w
               <= nextObjectURL
                    (snd (setupEnvironment file blurriness useSkybox d w)))
      as [Hurls Hnext].
    { destruct file as [s | f];
        unfold setupEnvironment, setupEnvironment_begin, bind, ret,
          URL_createObjectURL; cbn -[setupEnvironment_resume];
        rewrite setupEnvironment_resume_world;
        cbn [snd objectURLs nextObjectURL env_file env_url is_string negb
             andb];
        rewrite ?truthy_blob, ?filter_out_head, ?filter_out_absent
          by (exact Hfresh);
        split; solve [reflexivity | lia]. }
    split; [exact Hurls | exact (wellFormedWorld_next _ _ Hurls Hnext Hw)].
Qed.

Lemma loaders_leave_no_object_url_witness :
  wellFormedWorld freshWorld
  /\ objectURLs
       (snd (setupEnvironment (req_file uploadA) 0%float true
               (Fulfilled textureA) freshWorld))
     = objectURLs freshWorld.
Proof.
  assert (wellFormedWorld freshWorld) as Hw.
  { intros u Hu. apply elem_of_nil in Hu. destruct Hu. }
  split; [exact Hw |].
  exact (proj1 (proj2 (loaders_leave_no_object_url freshWorld Hw)
                  (req_file uploadA) 0%float true (Fulfilled textureA))).
Defined.

(** X3: [loadGLTFModel] hands the outcome of the decoder through: the
    decoded asset as it is, or the decoder's own error rethrown.  It never
    writes to the scene, and it logs one error when the decode fails and
    none when it succeeds. *)
Theorem loadGLTFModel_passes_outcome (file : File) (d : Settled GLTF)
    (w : World) :
  let '(c, w') := loadGLTFModel file d w in
  c = match d with
      | Fulfilled gltf => Normal gltf
      | Rejected e => Throw e
      end
  /\ scene w' = scene w
  /\ errorsLogged (eventsSince w w')
     = match d with
       | Fulfilled _ => []
       | Rejected e => [("Error loading GLTF model:", e)]
       end.
Proof.
  pose proof (loadGLTFModel_events file d w) as H.
  destruct (loadGLTFModel file d w) as [c w'] eqn:E.
  destruct H as [Hc Hev]. split; [exact Hc |]. split.
  - destruct d; cbn in E; inversion E; reflexivity.
  - rewrite (eventsSince_app _ _ _ Hev). destruct d; reflexivity.
Qed.

(** ** The loaders, several calls in flight *)

(** X4: two uploads in flight hold two different object URLs, and the job
    that resumes one of them, whatever its decode gave, revokes its own URL
    and leaves the URL of the other held. *)
Theorem resumed_load_keeps_other_url (fa fb : File)
    (ba bb : JS.number) (ka kb : bool) (w : World) :
  exists la lb w1 w2,
    setupEnvironment_begin (AsFile fa) ba ka w = (Normal la, w1)
    /\ setupEnvironment_begin (AsFile fb) bb kb w1 = (Normal lb, w2)
    /\ env_url la <> env_url lb
    /\ env_url la ∈ objectURLs w2
    /\ env_url lb ∈ objectURLs w2
    /\ (forall da,
          let w3 := snd (setupEnvironment_resume la da w2) in
          (env_url la ∉ objectURLs w3) /\ env_url lb ∈ objectURLs w3)
    /\ (forall db,
          let w3 := snd (setupEnvironment_resume lb db w2) in
          (env_url lb ∉ objectURLs w3) /\ env_url la ∈ objectURLs w3).
Proof.
  eexists _, _, _, _. split; [reflexivity |]. split; [reflexivity |].
  cbn [env_url objectURLs nextObjectURL].
  assert ("blob:" +:+ pretty (nextObjectURL w)
          <> "blob:" +:+ pretty (S (nextObjectURL w))) as Hne.
  { intros H. symmetry in H. exact (blob_url_succ_ne _ H). }
  split_and!.
  - exact Hne.
  - apply elem_of_cons. right. apply elem_of_cons. left. reflexivity.
  - apply elem_of_cons. left. reflexivity.
  - intros da. rewrite setupEnvironment_resume_world.
    cbn [snd objectURLs env_file env_url is_string negb andb].
    rewrite truthy_blob. rewrite !list_elem_of_filter, !elem_of_cons.
    split; [tauto |]. split; [congruence | auto].
  - intros db. rewrite setupEnvironment_resume_world.
    cbn [snd objectURLs env_file env_url is_string negb andb].
    rewrite truthy_blob. rewrite !list_elem_of_filter, !elem_of_cons.
    split; [tauto |]. split; [exact Hne | auto].
Qed.

Lemma settleAll_app (l k : list (EnvironmentLoad * Settled Texture))
    (w : World) :
  settleAll (l ++ k) w = settleAll k (settleAll l w).
Proof. apply fold_left_app. Qed.

Lemma settleAll_rejected_scene (l : list (EnvironmentLoad * Settled Texture)) :
  Forall (fun ld => isRejected ld.2) l ->
  forall w, scene (settleAll l w) = scene w.
Proof.
  induction 1 as [| [load d] r Hd _ IH]; intros w; [reflexivity |].
  cbn [settleAll fold_left] in *. fold (settleAll r) in *. rewrite IH.
  rewrite setupEnvironment_resume_world. destruct d; [destruct Hd |].
  reflexivity.
Qed.

(** X5: however many environment loads are in flight and in whatever
    order their decodes settle, the scene ends up as the last load whose
    decode succeeded wrote it: environment, background and blurriness all
    come from that one load, never a mix of two.  When no decode succeeds
    the scene is what it was. *)
Theorem settleAll_last_fulfilled_writes_scene
    (before after : list (EnvironmentLoad * Settled Texture))
    (load : EnvironmentLoad) (t : Texture) (w : World) :
  Forall (fun ld => isRejected ld.2) after ->
  scene (settleAll (before ++ (load, Fulfilled t) :: after) w)
  = {| environment := Some (reflectionMapped t);
       background :=
         if env_useSkybox load then TextureBackground (reflectionMapped t)
         else ColorBackground 0xffffff%N;
       backgroundBlurriness := env_blurriness load |}
  /\ scene (settleAll after w) = scene w.
Proof.
  intros Hafter. split; [| apply settleAll_rejected_scene, Hafter].
  rewrite settleAll_app. cbn [settleAll fold_left]. fold (settleAll after).
  rewrite settleAll_rejected_scene by exact Hafter.
  rewrite setupEnvironment_resume_world. reflexivity.
Qed.

Lemma settleAll_last_fulfilled_writes_scene_witness :
  Forall (fun ld : EnvironmentLoad * Settled Texture => isRejected ld.2)
    [(mkEnvironmentLoad (AsString "c.hdr") "c.hdr" 1%float true,
      Rejected (Error "404"))]
  /\ environment
       (scene
          (settleAll
             [(mkEnvironmentLoad (AsString "a.hdr") "a.hdr" 0%float true,
               Fulfilled textureA);
              (mkEnvironmentLoad (AsString "b.hdr") "b.hdr" 0.5%float false,
               Fulfilled textureB);
              (mkEnvironmentLoad (AsString "c.hdr") "c.hdr" 1%float true,
               Rejected (Error "404"))]
             freshWorld))
     = Some (reflectionMapped textureB).
Proof.
  assert (Forall (fun ld : EnvironmentLoad * Settled Texture => isRejected ld.2)
            [(mkEnvironmentLoad (AsString "c.hdr") "c.hdr" 1%float true,
              Rejected (Error "404"))]) as H.
  { constructor; [exact I | constructor]. }
  split; [exact H |].
  exact (f_equal environment
           (proj1 (settleAll_last_fulfilled_writes_scene
                     [(mkEnvironmentLoad (AsString "a.hdr") "a.hdr" 0%float
                         true, Fulfilled textureA)]
                     _ (mkEnvironmentLoad (AsString "b.hdr") "b.hdr" 0.5%float
                          false) textureB freshWorld H))).
Defined.

Lemma resume_keeps_or_drops (load : EnvironmentLoad) (d : Settled Texture)
    (w : World) (u : string) :
  u ∈ objectURLs (snd (setupEnvironment_resume load d w)) ->
  u ∈ objectURLs w.
Proof.
  rewrite setupEnvironment_resume_world. cbn [snd objectURLs].
  destruct (negb (is_string (env_file load)) && truthy (env_url load));
    [| auto].
  rewrite list_elem_of_filter. tauto.
Qed.

Lemma settleAll_keeps_or_drops (l : list (EnvironmentLoad * Settled Texture)) :
  forall (w : World) (u : string),
    u ∈ objectURLs (settleAll l w) -> u ∈ objectURLs w.
Proof.
  induction l as [| [load d] r IH]; intros w u Hu; [exact Hu |].
  cbn [settleAll fold_left] in Hu. fold (settleAll r) in Hu.
  apply IH in Hu. eapply resume_keeps_or_drops, Hu.
Qed.

(** X6: the jobs that resume environment loads never create an object
    URL: the URLs held afterwards were all held before, and the URL
    counter is where it was.  Once the loads have settled, no URL that a
    settled load created for a [File] is held any more, whatever the
    order and the outcomes. *)
Theorem settleAll_releases_every_upload
    (settled : list (EnvironmentLoad * Settled Texture)) (w : World) :
  (forall u, u ∈ objectURLs (settleAll settled w) -> u ∈ objectURLs w)
  /\ nextObjectURL (settleAll settled w) = nextObjectURL w
  /\ forall load d,
       (load, d) ∈ settled ->
       is_string (env_file load) = false ->
       truthy (env_url load) = true ->
       env_url load ∉ objectURLs (settleAll settled w).
Proof.
  split_and!.
  - apply settleAll_keeps_or_drops.
  - revert w. induction settled as [| [load d] r IH]; intros w; [reflexivity |].
    cbn [settleAll fold_left]. fold (settleAll r). rewrite IH.
    rewrite setupEnvironment_resume_world. reflexivity.
  - intros load d Hin Hfile Hurl. revert w.
    induction settled as [| [load' d'] r IH]; intros w.
    + apply elem_of_nil in Hin. destruct Hin.
    + cbn [settleAll fold_left]. fold (settleAll r).
      apply elem_of_cons in Hin as [Heq | Hin]; [| apply IH, Hin].
      injection Heq as <- <-. intros Hu.
      apply settleAll_keeps_or_drops in Hu.
      rewrite setupEnvironment_resume_world in Hu.
      cbn [snd objectURLs fst] in Hu. rewrite Hfile, Hurl in Hu.
      cbn [negb andb] in Hu. apply list_elem_of_filter in Hu as [Hne _].
      apply Hne. reflexivity.
Qed.

Lemma settleAll_releases_every_upload_witness :
  let la := mkEnvironmentLoad (req_file uploadA) ("blob:" +:+ pretty 0)
              0%float true in
  is_string (env_file la) = false
  /\ truthy (env_url la) = true
  /\ env_url la
     ∉ objectURLs
         (settleAll [(la, Rejected (Error "corrupt"))]
            (snd (setupEnvironment_begin (req_file uploadA) 0%float true
                    freshWorld))).
Proof.
  split; [reflexivity |]. split; [reflexivity |].
  refine (proj2 (proj2 (settleAll_releases_every_upload
                          [(mkEnvironmentLoad (req_file uploadA)
                              ("blob:" +:+ pretty 0) 0%float true,
                            Rejected (Error "corrupt"))]
                          (snd (setupEnvironment_begin (req_file uploadA)
                                  0%float true freshWorld))))
            (mkEnvironmentLoad (req_file uploadA) ("blob:" +:+ pretty 0)
               0%float true)
            (Rejected (Error "corrupt")) _ eq_refl eq_refl).
  apply list_elem_of_here.
Defined.

(** ** How the normalizer, the shadow configurator and the material
    collector compose *)

(** The bounding volume reads the class, the position and the scale of the
    nodes and nothing else. *)
Lemma expandByObject_mapProps (f : Props -> Props) (o : Object3D) :
  (forall p, class (f p) = class p /\ position (f p) = position p
             /\ scale (f p) = scale p) ->
  forall parent box,
    expandByObject parent (mapProps f o) box = expandByObject parent o box.
Proof.
  intros Hf. induction o as [p cs IH] using Object3D_induction.
  intros parent box. cbn [mapProps expandByObject].
  destruct (Hf p) as (Hc & Hp & Hs).
  assert (matrixWorld parent (f p) = matrixWorld parent p) as ->.
  { unfold matrixWorld. rewrite Hp, Hs. reflexivity. }
  assert (geometry_of (f p) = geometry_of p) as ->.
  { unfold geometry_of. rewrite Hc. reflexivity. }
  generalize (match geometry_of p with
              | Some g =>
                  Box3.union box
                    (Box3.applyMatrix4 (computeBoundingBox g)
                       (matrixWorld parent p))
              | None => box
              end) as box1.
  induction IH as [| c r Hc' _ IHr]; intros box1; [reflexivity |].
  cbn [List.map]. rewrite Hc'. apply IHr.
Qed.

Lemma enableShadows_keeps_transform (p : Props) :
  class (fst (enableShadows p tt)) = class p
  /\ position (fst (enableShadows p tt)) = position p
  /\ scale (fst (enableShadows p tt)) = scale p.
Proof. unfold enableShadows. destruct (isMesh p); auto. Qed.

(** X8: the normalizer and the shadow configurator can run in either
    order.  Enabling the shadows leaves the bounding volume of the model
    as it is, and normalizing a model with its shadows enabled gives the
    model that enabling the shadows of the normalized model gives. *)
Theorem centerAndScaleModel_enableModelShadows_commute (model : Object3D) :
  boundingVolume (enableModelShadows model) = boundingVolume model
  /\ centerAndScaleModel (enableModelShadows model)
     = enableModelShadows (centerAndScaleModel model).
Proof.
  assert (setFromObject (enableModelShadows model) = setFromObject model)
    as Hbox.
  { rewrite enableModelShadows_mapProps. unfold setFromObject.
    apply expandByObject_mapProps, enableShadows_keeps_transform. }
  split; [exact Hbox |].
  unfold centerAndScaleModel at 1. rewrite Hbox.
  rewrite !enableModelShadows_mapProps.
  destruct model as [p cs]. cbn [mapProps centerAndScaleModel].
  f_equal. unfold enableShadows, isMesh.
  destruct p as [[g m | g m |] ? ? ? ?]; reflexivity.
Qed.

Lemma encounters_mapProps (f : Props -> Props) (o : Object3D) :
  (forall p, assignedMaterials (f p) = assignedMaterials p) ->
  encounters (mapProps f o) = encounters o.
Proof.
  intros Hf. unfold encounters. rewrite nodes_mapProps, list_fmap_bind.
  apply list_bind_ext; [| reflexivity]. intros p. apply Hf.
Qed.

(** X9: neither the normalizer nor the shadow configurator changes what
    the material collector returns, so the materials can be collected
    before or after them.  The normalizer writes the position and the
    scale of the root and nothing else: the children, the class and the
    shadow flags of the root are the ones it was given. *)
Theorem getUniqueModelMaterials_after_normalizer_and_shadows
    (model : Object3D) :
  getUniqueModelMaterials (centerAndScaleModel model)
  = getUniqueModelMaterials model
  /\ getUniqueModelMaterials (enableModelShadows model)
     = getUniqueModelMaterials model
  /\ getUniqueModelMaterials (enableModelShadows (centerAndScaleModel model))
     = getUniqueModelMaterials model
  /\ children_of (centerAndScaleModel model) = children_of model
  /\ class (props_of (centerAndScaleModel model)) = class (props_of model)
  /\ castShadow (props_of (centerAndScaleModel model))
     = castShadow (props_of model)
  /\ receiveShadow (props_of (centerAndScaleModel model))
     = receiveShadow (props_of model).
Proof.
  assert (forall m, getUniqueModelMaterials (centerAndScaleModel m)
                    = getUniqueModelMaterials m) as Hn.
  { intros [p cs]. rewrite !getUniqueModelMaterials_addAll. reflexivity. }
  assert (forall m, getUniqueModelMaterials (enableModelShadows m)
                    = getUniqueModelMaterials m) as Hs.
  { intros m. rewrite !getUniqueModelMaterials_addAll.
    rewrite enableModelShadows_mapProps, encounters_mapProps; [reflexivity |].
    intros p. unfold assignedMaterials.
    destruct (enableShadows_keeps_transform p) as [-> _]. reflexivity. }
  split_and!.
  - apply Hn.
  - apply Hs.
  - rewrite Hs. apply Hn.
  - destruct model; reflexivity.
  - destruct model; reflexivity.
  - destruct model; reflexivity.
  - destruct model; reflexivity.
Qed.

Lemma firstOccurrences_from_filter (l : list Material) :
  forall seen s0,
    firstOccurrences_from (seen ++ s0) l
    = filter (fun v => v ∉ seen) (firstOccurrences_from s0 l).
Proof.
  induction l as [| v r IH]; intros seen s0; cbn; [reflexivity |].
  destruct (decide (v ∈ s0)) as [H0 | H0].
  - rewrite decide_True by (apply elem_of_app; auto). apply IH.
  - destruct (decide (v ∈ seen)) as [Hs | Hs].
    + rewrite decide_True by (apply elem_of_app; auto).
      rewrite filter_cons_False by auto. rewrite <- IH.
      apply firstOccurrences_from_ext. intros u.
      rewrite !elem_of_app, elem_of_cons. split; [tauto |].
      intros [? | [-> | ?]]; auto.
    + rewrite decide_False by (rewrite elem_of_app; tauto).
      rewrite filter_cons_True by exact Hs. f_equal. rewrite <- IH.
      apply firstOccurrences_from_ext. intros u.
      rewrite !elem_of_cons, !elem_of_app, elem_of_cons. tauto.
Qed.

(** X10: appending a child to the root of a model appends to the array of
    materials: the materials listed before keep their places, and after
    them come the materials of the new child that were not listed yet, in
    the order in which the child on its own lists them. *)
Theorem getUniqueModelMaterials_append_child (p : Props)
    (cs : list Object3D) (c : Object3D) :
  getUniqueModelMaterials (Obj p (cs ++ [c]))
  = getUniqueModelMaterials (Obj p cs)
    ++ filter (fun v => v ∉ getUniqueModelMaterials (Obj p cs))
         (getUniqueModelMaterials c).
Proof.
  rewrite !getUniqueModelMaterials_addAll.
  assert (encounters (Obj p (cs ++ [c])) = encounters (Obj p cs) ++ encounters c)
    as ->.
  { unfold encounters. cbn [nodes].
    rewrite !bind_cons, !bind_app, bind_singleton, app_assoc. reflexivity. }
  rewrite addAll_app, (addAll_firstOccurrences (encounters c)). f_equal.
  rewrite (addAll_firstOccurrences (encounters c) JSSet.empty).
  unfold JSSet.empty. cbn [app].
  rewrite <- firstOccurrences_from_filter, app_nil_r. reflexivity.
Qed.

(** ** The lighting panel *)

Lemma Lighting_handle_keeps_custom (s : Lighting.LightSettings)
    (a : Lighting.Action) :
  (is_Some (Lighting.customHDR s) -> Lighting.environmentMap s = "custom") ->
  is_Some (Lighting.customHDR (Lighting.handle s a)) ->
  Lighting.environmentMap (Lighting.handle s a) = "custom".
Proof.
  intros Hs. destruct a as [files | value | value | checked]; cbn.
  - unfold Lighting.onHDRChosen. destruct (head files); auto.
  - intros [f Hf]. discriminate.
  - exact Hs.
  - exact Hs.
Qed.

(** X11: through any sequence of uploads, selections, slider moves and
    skybox toggles, a custom HDR file is held only while the selected
    environment is "custom".  So whenever the panel shows its "Loaded:"
    line, the selection is "custom" and the list offers "custom". *)
Theorem Lighting_custom_file_means_custom_selected
    (actions : list Lighting.Action) (s : Lighting.LightSettings) :
  (is_Some (Lighting.customHDR s) -> Lighting.environmentMap s = "custom") ->
  (is_Some (Lighting.customHDR (Lighting.run actions s)) ->
   Lighting.environmentMap (Lighting.run actions s) = "custom")
  /\ forall line,
       Lighting.loadedBanner (Lighting.run actions s) = Some line ->
       Lighting.environmentMap (Lighting.run actions s) = "custom"
       /\ forall ENV_MAPS,
            "custom" ∈ Lighting.selectItems ENV_MAPS (Lighting.run actions s).
Proof.
  intros Hs.
  assert (is_Some (Lighting.customHDR (Lighting.run actions s)) ->
          Lighting.environmentMap (Lighting.run actions s) = "custom") as H.
  { revert s Hs. induction actions as [| a r IH]; intros s Hs; [exact Hs |].
    cbn [Lighting.run fold_left]. apply IH.
    apply Lighting_handle_keeps_custom, Hs. }
  split; [exact H |].
  intros line Hline. unfold Lighting.loadedBanner, Lighting.selectItems in *.
  destruct (Lighting.customHDR (Lighting.run actions s)) as [f |];
    [| discriminate].
  split; [apply H; eauto |].
  intros ENV_MAPS. apply elem_of_app. right. apply list_elem_of_singleton.
  reflexivity.
Qed.

Lemma Lighting_custom_file_means_custom_selected_witness :
  (is_Some (Lighting.customHDR (Lighting.mk "studio" None (Some 0%float) false))
   -> Lighting.environmentMap (Lighting.mk "studio" None (Some 0%float) false)
      = "custom")
  /\ Lighting.environmentMap
       (Lighting.run
          [Lighting.HDRChosen [mkFile "sky.hdr"];
           Lighting.BlurrinessChanged [0.5%float];
           Lighting.HDRChosen []]
          (Lighting.mk "studio" None (Some 0%float) false))
     = "custom".
Proof.
  assert (is_Some (Lighting.customHDR
                     (Lighting.mk "studio" None (Some 0%float) false))
          -> Lighting.environmentMap
               (Lighting.mk "studio" None (Some 0%float) false) = "custom")
    as H.
  { intros [f Hf]. discriminate. }
  split; [exact H |].
  refine (proj1 (Lighting_custom_file_means_custom_selected
                   [Lighting.HDRChosen [mkFile "sky.hdr"];
                    Lighting.BlurrinessChanged [0.5%float];
                    Lighting.HDRChosen []]
                   (Lighting.mk "studio" None (Some 0%float) false) H) _).
  exists (mkFile "sky.hdr"). reflexivity.
Defined.

(** ** The normalizer run again; models without meshes *)

(** X12: whenever a run of [centerAndScaleModel] has left the model
    exactly 3 units wide, a second run writes the scale (1, 1, 1); so
    unless the first run wrote that very scale, the second run changes the
    model again: the function is not idempotent. *)
Theorem centerAndScaleModel_second_run_rescales (model : Object3D) :
  maxExtent (centerAndScaleModel model) = 3%float ->
  scale (props_of (centerAndScaleModel (centerAndScaleModel model)))
  = Vector3.mk 1 1 1
  /\ (scale (props_of (centerAndScaleModel model)) <> Vector3.mk 1 1 1 ->
      centerAndScaleModel (centerAndScaleModel model)
      <> centerAndScaleModel model).
Proof.
  intros H.
  pose proof (centerAndScaleModel_again_resets_scale model H) as Hscale.
  split; [exact Hscale |].
  intros Hne Heq. apply Hne. rewrite <- Heq at 1. exact Hscale.
Qed.

Lemma centerAndScaleModel_second_run_rescales_witness :
  maxExtent (centerAndScaleModel unitCube) = 3%float
  /\ scale (props_of (centerAndScaleModel (centerAndScaleModel unitCube)))
     = Vector3.mk 1 1 1.
Proof.
  split; [reflexivity |].
  exact (proj1 (centerAndScaleModel_second_run_rescales unitCube eq_refl)).
Defined.

(** X13: in a hierarchy without a [Mesh] (lines, points, groups, lights),
    [enableModelShadows] changes nothing and [getUniqueModelMaterials]
    returns the empty array, whatever materials the lines and points
    carry. *)
Theorem no_mesh_no_shadows_no_materials (model : Object3D) :
  Forall (fun p => isMesh p = false) (nodes model) ->
  enableModelShadows model = model
  /\ getUniqueModelMaterials model = [].
Proof.
  intros H. split.
  - rewrite enableModelShadows_mapProps.
    induction model as [p cs IH] using Object3D_induction.
    cbn [nodes] in H. apply Forall_cons in H as [Hp Hcs].
    cbn [mapProps]. unfold enableShadows at 1. rewrite Hp. cbn [fst].
    f_equal. rewrite Forall_bind in Hcs.
    induction IH as [| c r Hc _ IHr]; [reflexivity |].
    apply Forall_cons in Hcs as [Hc' Hr].
    cbn [List.map]. rewrite (Hc Hc'), (IHr Hr). reflexivity.
  - rewrite getUniqueModelMaterials_addAll.
    assert (encounters model = []) as ->; [| reflexivity].
    unfold encounters. induction (nodes model) as [| p r IH]; [reflexivity |].
    apply Forall_cons in H as [Hp Hr].
    rewrite bind_cons, (IH Hr), app_nil_r.
    unfold assignedMaterials. unfold isMesh in Hp.
    destruct (class p) as [g m | g m |]; [discriminate | reflexivity ..].
Qed.

Lemma no_mesh_no_shadows_no_materials_witness :
  Forall (fun p => isMesh p = false) (nodes wireModel)
  /\ getUniqueModelMaterials wireModel = []
  /\ boundingVolume wireModel
     = Box3.mk (Vector3.mk 0 0 0) (Vector3.mk 2 1 1).
Proof.
  assert (Forall (fun p => isMesh p = false) (nodes wireModel)) as H.
  { repeat constructor. }
  split; [exact H |]. split; [| reflexivity].
  exact (proj2 (no_mesh_no_shadows_no_materials wireModel H)).
Defined.
